(** * Brighton Player Daily: the daily selector, the clue builder and the
      selection history of [app.py], embedded in Rocq.

    Python values are modelled as the program has them: a [str] is a
    sequence of Unicode code points, a [set] of tags or indices is a
    [gset], a [dict] is an insertion-ordered association list, an
    exception is a value of [exn] carried by [result], and the history
    file is explicit state threaded through the functions that read or
    write it. *)

From Stdlib Require Import ZArith NArith List String Ascii Decimal DecimalString Lia.
From stdpp Require Import base option list numbers strings gmap sorting.

Local Open Scope Z_scope.

(** ** Python strings *)

(** A Python [str]: its code points, in order. *)
Abbreviation str := (list N).

(** A literal of the source, written with the characters of Basic Latin. *)
Definition lit (s : string) : str := N_of_ascii <$> list_ascii_of_string s.
Arguments lit : simpl never.

Definition APOSTROPHE : N := 39%N.
Definition QUOTATION_MARK : N := 34%N.
Definition EN_DASH : N := 8211%N.
Definition LEFT_SINGLE_QUOTE : N := 8216%N.
Definition RIGHT_SINGLE_QUOTE : N := 8217%N.
Definition LEFT_DOUBLE_QUOTE : N := 8220%N.
Definition RIGHT_DOUBLE_QUOTE : N := 8221%N.

(** [c.isspace()]: the white-space code points of Python. *)
Definition isspace (c : N) : bool :=
  ((9 <=? c) && (c <=? 13) || (28 <=? c) && (c <=? 32)
   || (c =? 133) || (c =? 160) || (c =? 5760)
   || (8192 <=? c) && (c <=? 8202)
   || (c =? 8232) || (c =? 8233) || (c =? 8239) || (c =? 8287)
   || (c =? 12288))%N.

Fixpoint lstrip_with (f : N -> bool) (s : str) : str :=
  match s with
  | c :: s' => if f c then lstrip_with f s' else s
  | [] => []
  end.

Definition strip_with (f : N -> bool) (s : str) : str :=
  reverse (lstrip_with f (reverse (lstrip_with f s))).

(** [s.strip()] *)
Definition strip (s : str) : str := strip_with isspace s.

(** [s.strip(chars)] *)
Definition strip_chars (chars : str) (s : str) : str :=
  strip_with (fun c => bool_decide (c ∈ chars)) s.

(** A string is true in a condition when it is not empty. *)
Definition truthy (s : str) : bool :=
  match s with [] => false | _ :: _ => true end.

Fixpoint startswith (p s : str) : bool :=
  match p, s with
  | [], _ => true
  | a :: p', b :: s' => (a =? b)%N && startswith p' s'
  | _ :: _, [] => false
  end.

(** [p in s], for strings *)
Fixpoint contains (p s : str) : bool :=
  startswith p s ||
  match s with
  | [] => false
  | _ :: s' => contains p s'
  end.

(** [s.split(' ', 1)] for a string that holds a space: the text before the
    first space and the text after it. *)
Fixpoint split_at_space (s : str) : str * str :=
  match s with
  | [] => ([], [])
  | c :: s' =>
      if (c =? 32)%N then ([], s')
      else let '(a, b) := split_at_space s' in (c :: a, b)
  end.

(** [s.replace(old, new)] where [old] and [new] are single characters. *)
Definition replace (old new : N) (s : str) : str :=
  (fun c => if (c =? old)%N then new else c) <$> s.

(** [chr(c).lower()] for a code point of Basic Latin or Latin-1: the
    capital letters A to Z and those from U+00C0 to U+00DE, but the
    multiplication sign U+00D7, go to their small letters, 32 places up;
    every other code point below 256 stays as it is. *)
Definition lower_char (c : N) : N :=
  (if (65 <=? c) && (c <=? 90) then c + 32
   else if (192 <=? c) && (c <=? 222) && negb (c =? 215) then c + 32
   else c)%N.

(** The code points on which [str.lower] is used as known: Basic Latin,
    Latin-1 and the four curly quotes. *)
Definition plain (c : N) : Prop :=
  (c < 256)%N
  ∨ c = LEFT_SINGLE_QUOTE ∨ c = RIGHT_SINGLE_QUOTE
  ∨ c = LEFT_DOUBLE_QUOTE ∨ c = RIGHT_DOUBLE_QUOTE.

#[global] Instance plain_dec c : Decision (plain c).
Proof. unfold plain. apply _. Defined.

(** [s.lower()].  Python lowers a string by the case tables of Unicode:
    most code points go to one code point, some to two, and the capital
    sigma goes by its place in the word.  [lower] stands for that
    function; what is known of it here is what it does to a string of
    plain code points, which it lowers one by one, the curly quotes
    staying as they are. *)
Class PyLower := {
  lower : str → str;
  lower_plain : ∀ s, Forall plain s → lower s = lower_char <$> s
}.

(** A [lower] that knows the letters of Basic Latin and Latin-1 only, to
    run the routes on names in these. *)
Definition latin1_lower : PyLower :=
  {| lower := fmap lower_char;
     lower_plain := fun _ _ => eq_refl |}.

(** [str(n)] for an integer: its decimal digits. *)
Fixpoint digits (d : Decimal.uint) : str :=
  match d with
  | Nil => []
  | D0 d => 48%N :: digits d
  | D1 d => 49%N :: digits d
  | D2 d => 50%N :: digits d
  | D3 d => 51%N :: digits d
  | D4 d => 52%N :: digits d
  | D5 d => 53%N :: digits d
  | D6 d => 54%N :: digits d
  | D7 d => 55%N :: digits d
  | D8 d => 56%N :: digits d
  | D9 d => 57%N :: digits d
  end.

Definition str_of_Z (z : Z) : str :=
  match Z.to_int z with
  | Decimal.Pos d => digits d
  | Decimal.Neg d => 45%N :: digits d
  end.

(** The decimal digits of Unicode come in runs of ten, from the digit zero
    to the digit nine of a script.  These are the code points of the
    digit zero of each run (the table of CPython 3.11, Unicode 14): Basic
    Latin first, then Arabic-Indic, Devanagari and the others. *)
Definition decimal_zeros : list N :=
  [48; 1632; 1776; 1984; 2406; 2534; 2662; 2790; 2918; 3046; 3174; 3302;
   3430; 3558; 3664; 3792; 3872; 4160; 4240; 6112; 6160; 6470; 6608; 6784;
   6800; 6992; 7088; 7232; 7248; 42528; 43216; 43264; 43472; 43504; 43600;
   44016; 65296; 66720; 68912; 69734; 69872; 69942; 70096; 70384; 70736;
   70864; 71248; 71360; 71472; 71904; 72016; 72784; 73040; 73120; 92768;
   92864; 93008; 120782; 120792; 120802; 120812; 120822; 123200; 123632;
   125264; 130032]%N.

(** The digit zero of the run that [c] is in, when [c] is a decimal
    digit. *)
Definition decimal_zero (c : N) : option N :=
  List.find (fun z => (z <=? c) && (c <=? z + 9))%N decimal_zeros.

(** [c] matches the pattern [\d] of [re] on a [str]: it is a decimal digit
    of any script. *)
Definition isdigit (c : N) : bool :=
  match decimal_zero c with Some _ => true | None => false end.

(** The value of a decimal digit, as [int] reads it. *)
Definition digit_value (c : N) : Z :=
  match decimal_zero c with Some z => Z.of_N (c - z) | None => 0 end.

(** [int(y)] for a string of digits. *)
Definition int_of_digits (y : str) : Z :=
  fold_left (fun acc c => 10 * acc + digit_value c) y 0.

(** [re.findall(r'(\d{4})', s)]: the groups of four digits, left to right,
    without overlap. *)
Fixpoint findall_d4 (s : str) : list str :=
  match s with
  | [] => []
  | a :: t =>
      match t with
      | b :: c :: d :: r =>
          if isdigit a && isdigit b && isdigit c && isdigit d
          then [a; b; c; d] :: findall_d4 r
          else findall_d4 t
      | _ => findall_d4 t
      end
  end.

(** ** Exceptions *)

Inductive exn :=
  | FileNotFoundError
  | PermissionError
  | UnicodeDecodeError
  | JSONDecodeError
  | AttributeError
  | ValueError
  | IndexError.

Inductive result (A : Type) :=
  | Ok (a : A)
  | Raise (e : exn).
Arguments Ok {A} a.
Arguments Raise {A} e.

#[global] Instance result_bind : MBind result :=
  fun A B (k : A -> result B) (r : result A) =>
    match r with
    | Ok a => k a
    | Raise e => Raise e
    end.

#[global] Instance exn_eq_dec : EqDecision exn.
Proof. solve_decision. Defined.

(** ** Dates of the [datetime] library *)

(** A [date] is its proleptic Gregorian ordinal ([date.toordinal()]), so
    that [d - timedelta(days=30)] is [d - 30] and dates compare as
    integers. *)
Abbreviation date := Z.

(** A [datetime] without time zone: its date and its time of day, [0] at
    midnight. *)
Record datetime := { dt_date : date; dt_time : Z }.

#[global] Instance datetime_eq_dec : EqDecision datetime.
Proof. solve_decision. Defined.

(** [datetime.combine(d, datetime.min.time())] *)
Definition midnight (d : date) : datetime := {| dt_date := d; dt_time := 0 |}.

Definition _DAYS_IN_MONTH : list Z :=
  [-1; 31; 28; 31; 30; 31; 30; 31; 31; 30; 31; 30; 31].
Definition _DAYS_BEFORE_MONTH : list Z :=
  [-1; 0; 31; 59; 90; 120; 151; 181; 212; 243; 273; 304; 334].

Definition _is_leap (year : Z) : bool :=
  (year mod 4 =? 0) && (negb (year mod 100 =? 0) || (year mod 400 =? 0)).

Definition _days_before_month (year month : Z) : Z :=
  nth (Z.to_nat month) _DAYS_BEFORE_MONTH 0
  + Z.b2z ((2 <? month) && _is_leap year).

(** [_ord2ymd(n)] of the library: year, month and day of an ordinal. *)
Definition _ord2ymd (n : Z) : Z * Z * Z :=
  let n := n - 1 in
  let n400 := n / 146097 in
  let n := n mod 146097 in
  let year := n400 * 400 + 1 in
  let n100 := n / 36524 in
  let n := n mod 36524 in
  let n4 := n / 1461 in
  let n := n mod 1461 in
  let n1 := n / 365 in
  let n := n mod 365 in
  let year := year + (n100 * 100 + n4 * 4 + n1) in
  if (n1 =? 4) || (n100 =? 4) then (year - 1, 12, 31)
  else
    let leapyear := (n1 =? 3) && (negb (n4 =? 24) || (n100 =? 3)) in
    let month := Z.shiftr (n + 50) 5 in
    let preceding :=
      nth (Z.to_nat month) _DAYS_BEFORE_MONTH 0
      + Z.b2z ((2 <? month) && leapyear) in
    if n <? preceding then
      let month := month - 1 in
      let preceding :=
        preceding - (nth (Z.to_nat month) _DAYS_IN_MONTH 0
                     + Z.b2z ((month =? 2) && leapyear)) in
      (year, month, n - preceding + 1)
    else (year, month, n - preceding + 1).

(** [d.year] *)
Definition year (d : date) : Z := (_ord2ymd d).1.1.

(** [d.timetuple().tm_yday] *)
Definition tm_yday (d : date) : Z :=
  let '(y, m, dd) := _ord2ymd d in _days_before_month y m + dd.

(** [str(n)] padded with zeros to [width] digits, as ["%04d"] does for a
    number that is not negative. *)
Definition zero_pad (width : nat) (n : Z) : str :=
  let s := str_of_Z n in replicate (width - length s) 48%N ++ s.

(** [str(d)]: the ISO text of a date. *)
Definition str_of_date (d : date) : str :=
  let '(y, m, dd) := _ord2ymd d in
  zero_pad 4 y ++ lit "-" ++ zero_pad 2 m ++ lit "-" ++ zero_pad 2 dd.

(** ** The [random] library *)

(** What [random.Random] is seeded with in this program: an integer in the
    selector, a string (or any value a test passes) in the clue builder. *)
Inductive seed :=
  | SeedInt (z : Z)
  | SeedStr (s : str).

(** The generator of the library, through the two operations the program
    relies on: [Random(seed)] makes a generator state, [_randbelow(n)]
    draws an index below [n] and moves the state on. *)
Class PyRandom := {
  Rng : Type;
  Random : seed -> Rng;
  randbelow : nat -> Rng -> nat * Rng;
  randbelow_lt : forall n g, (0 < n)%nat -> ((randbelow n g).1 < n)%nat
}.

(** [x[i], x[j] = x[j], x[i]] *)
Definition swap {A} (x : list A) (i j : nat) : list A :=
  match x !! i, x !! j with
  | Some a, Some b => <[j := a]> (<[i := b]> x)
  | _, _ => x
  end.

(** The loop of [Random.shuffle]: [for i in reversed(range(1, len(x)))],
    entered at [i]. *)
Fixpoint shuffle_from `{PyRandom} {A} (i : nat) (x : list A) (g : Rng)
  : list A * Rng :=
  match i with
  | O => (x, g)
  | S i' =>
      let '(j, g') := randbelow (i + 1) g in
      shuffle_from i' (swap x i j) g'
  end.

(** [rng.shuffle(x)] *)
Definition shuffle `{PyRandom} {A} (x : list A) (g : Rng) : list A * Rng :=
  shuffle_from (length x - 1) x g.

(** [rng.choice(seq)] *)
Definition choice `{PyRandom} {A} (seq : list A) (g : Rng) : result A :=
  match seq with
  | [] => Raise IndexError
  | _ :: _ =>
      match seq !! (randbelow (length seq) g).1 with
      | Some a => Ok a
      | None => Raise IndexError
      end
  end.

(** A generator to run the program with: a counter, read modulo the bound
    and stepped by the length of the seed. *)
Definition counter_seed (s : seed) : nat :=
  match s with
  | SeedInt z => Z.to_nat (Z.abs z)
  | SeedStr t => length t
  end.

Definition counter_randbelow (n : nat) (g : nat) : nat * nat :=
  ((g `mod` n)%nat, S (3 * g)).

Definition counter_random : PyRandom :=
  {| Rng := nat;
     Random := counter_seed;
     randbelow := counter_randbelow;
     randbelow_lt := fun n g H =>
       Nat.mod_upper_bound g n (proj2 (Nat.neq_0_lt_0 n) H) |}.

(** ** The player catalogue *)

(** A row of [players_df], column by column.  The text columns are strings
    (the loader fills missing cells with the empty string), the counts are
    integers; [league_goals] is [None] for a value [pd.notna] rejects, and
    [team_played_for_after] is [None] for a value that is not a [str]. *)
Record Player := {
  name : str;
  date_of_birth : str;
  place_of_birth : str;
  country_of_birth : str;
  position : str;
  league_appearances : Z;
  league_goals : option Z;
  number_of_spells : Z;
  team_played_for_before : str;
  team_played_for_after : option str;
  seasons_played_at_Brighton : str;
  seasons_at_brighton_during_second_spell : str
}.

(** [split_name(name)] for a name that is present. *)
Definition split_name (name : str) : str * str :=
  let name_str := strip_chars [QUOTATION_MARK] (strip name) in
  if bool_decide (32%N ∈ name_str) then split_at_space name_str
  else (name_str, []).

(** The derived columns ['first name'] and ['last name']. *)
Definition first_name (p : Player) : str := (split_name (name p)).1.
Definition last_name (p : Player) : str := (split_name (name p)).2.

(** A row taken out of the frame: [label] is its [.name], the position of
    the row in the frame. *)
Record Series := { label : Z; row : Player }.

(** [df.iloc[i]]: a position counted from the end when negative,
    [IndexError] outside the frame. *)
Definition iloc (df : list Player) (i : Z) : result Series :=
  let n := Z.of_nat (length df) in
  let k := if i <? 0 then n + i else i in
  if (0 <=? k) && (k <? n) then
    match df !! Z.to_nat k with
    | Some p => Ok {| label := k; row := p |}
    | None => Raise IndexError
    end
  else Raise IndexError.

(** ** Clues *)

(** A candidate clue: its text and the set of facts it gives away. *)
Abbreviation clue_def := (str * gset string)%type.

(** [sorted(set(l))] *)
Definition sorted_set (l : list Z) : list Z := merge_sort Z.le (remove_dups l).

Definition _extract_era (seasons_str : str) : str :=
  if negb (truthy seasons_str) then []
  else
    let years := findall_d4 seasons_str in
    match years with
    | [] => []
    | _ :: _ =>
        let decades := sorted_set ((fun y => int_of_digits y / 10 * 10) <$> years) in
        if (length decades =? 1)%nat then
          lit "the " ++ str_of_Z (hd 0 decades) ++ lit "s"
        else
          lit "the " ++ str_of_Z (hd 0 decades) ++ lit "s and "
            ++ str_of_Z (List.last decades 0) ++ lit "s"
    end.

Definition left_for_clue (p : Player) : str :=
  match team_played_for_after p with
  | Some left_for_value =>
      if contains (lit "Retired") left_for_value then []
      else if bool_decide (strip left_for_value = lit "Still at club")
      then lit "This player is still at the club."
      else lit "This player left Brighton to join " ++ left_for_value
  | None => []
  end.

Definition era_clue (p : Player) : str :=
  let era := _extract_era (seasons_played_at_Brighton p) in
  if truthy era then lit "This player played for Brighton during " ++ era ++ lit "."
  else [].

Definition goals_clue (p : Player) : str :=
  match league_goals p with
  | Some goals =>
      lit "This player scored " ++ str_of_Z goals ++ lit " league goals for Brighton."
  | None => []
  end.

Definition tier_1 (p : Player) : list clue_def :=
  [ (if negb (truthy (seasons_played_at_Brighton p)) then era_clue p else [],
     {["era"]});
    (lit "This player was born in " ++ place_of_birth p ++ lit ", "
       ++ country_of_birth p ++ lit " and has " ++ str_of_Z (number_of_spells p)
       ++ lit " spell(s) at Brighton.",
     {["birth"; "spells"]});
    (if truthy (seasons_played_at_Brighton p)
     then lit "Seasons at Brighton: " ++ seasons_played_at_Brighton p else [],
     {["seasons"]});
    (if truthy (seasons_at_brighton_during_second_spell p)
     then lit "Seasons at Brighton during second spell: "
            ++ seasons_at_brighton_during_second_spell p
     else [],
     {["seasons2"]}) ].

Definition tier_2 (p : Player) : list clue_def :=
  [ (lit "This player made " ++ str_of_Z (league_appearances p)
       ++ lit " league appearances for Brighton.",
     {["appearances"]});
    (goals_clue p, {["goals"]});
    (lit "This player joined Brighton from " ++ team_played_for_before p,
     {["joined_from"]});
    (left_for_clue p, {["left_for"]}) ].

Definition tier_3 (p : Player) : list clue_def :=
  [ (lit "This player is a " ++ position p ++ lit ".", {["position"]});
    (lit "This player was born on " ++ date_of_birth p ++ lit ", in "
       ++ place_of_birth p ++ lit ", " ++ country_of_birth p ++ lit ".",
     {["birth"]}) ].

(** [[(c, t) for c, t in tier if c.strip()]] *)
Definition nonblank (tier : list clue_def) : list clue_def :=
  filter (fun d => truthy (strip d.1) = true) tier.

(** The three tiers, blank clues removed, each shuffled in turn with the
    one generator, then joined hard to easy. *)
Definition clue_defs `{PyRandom} (p : Player) (s : seed) : list clue_def :=
  let rng := Random s in
  let '(t1, rng) := shuffle (nonblank (tier_1 p)) rng in
  let '(t2, rng) := shuffle (nonblank (tier_2 p)) rng in
  let '(t3, rng) := shuffle (nonblank (tier_3 p)) rng in
  t1 ++ t2 ++ t3.

(** One turn of the final loop: the clue is appended when none of its tags
    has been used, and its tags are then used. *)
Definition add_clue (st : gset string * list str) (d : clue_def)
  : gset string * list str :=
  let '(facts_used, clues) := st in
  let '(clue, tags) := d in
  if decide (tags ∩ facts_used = ∅) then (facts_used ∪ tags, clues ++ [clue])
  else (facts_used, clues).

Definition select_clues (defs : list clue_def) : list str :=
  (foldl add_clue (∅, []) defs).2.

(** The seed [build_clues] falls back on: [str(today) + str(player.name)]. *)
Definition default_seed (today : date) (player : Series) : seed :=
  SeedStr (str_of_date today ++ str_of_Z (label player)).

(** [build_clues(player, seed)]; [today] is the date the clock gives when
    no seed is passed. *)
Definition build_clues `{PyRandom} (today : date) (player : Series)
    (s : option seed) : list str :=
  let s := match s with Some s => s | None => default_seed today player end in
  select_clues (clue_defs (row player) s).

(** The same loop, keeping each appended clue together with its tags. *)
Definition add_def (st : gset string * list clue_def) (d : clue_def)
  : gset string * list clue_def :=
  let '(facts_used, kept) := st in
  if decide (d.2 ∩ facts_used = ∅) then (facts_used ∪ d.2, kept ++ [d])
  else (facts_used, kept).

Definition select_defs (defs : list clue_def) : list clue_def :=
  (foldl add_def (∅, []) defs).2.

(** The clues of [build_clues] with the tags they were entered under. *)
Definition tagged_clues `{PyRandom} (today : date) (player : Series)
    (s : option seed) : list clue_def :=
  let s := match s with Some s => s | None => default_seed today player end in
  select_defs (clue_defs (row player) s).

(** ** The selection history *)

(** A Python [dict]: its items in insertion order, one per key. *)
Abbreviation dict K V := (list (K * V)).

(** [m.get(k)] *)
Fixpoint dict_get {K V} `{EqDecision K} (m : dict K V) (k : K) : option V :=
  match m with
  | [] => None
  | (k', v) :: m' => if decide (k' = k) then Some v else dict_get m' k
  end.

(** [m[k] = v]: the value of an existing key is replaced where it stands,
    a new key goes last. *)
Fixpoint dict_set {K V} `{EqDecision K} (m : dict K V) (k : K) (v : V)
  : dict K V :=
  match m with
  | [] => [(k, v)]
  | (k', v') :: m' =>
      if decide (k' = k) then (k, v) :: m' else (k', v') :: dict_set m' k v
  end.

(** A member name of the stored object, as [datetime.fromisoformat] reads
    it: the ISO text of a [datetime], which [isoformat] writes and
    [fromisoformat] reads back, or any other text, which it rejects. *)
Inductive key :=
  | KDate (d : datetime)
  | KText (s : str).

(** What [json.load] gives for [recent_players.json]: an object, whose
    values are the integer indices [save_recent_players] writes, or a
    document of another kind (array, string, number, boolean, null). *)
Inductive json_doc :=
  | JObject (members : list (key * Z))
  | JOther.

(** The state of [RECENT_PLAYERS_FILE], by what [open] and [json.load] make
    of it: there is no file; or the file holds text that is not JSON; or
    it is a file on which opening, reading or parsing fails otherwise --
    [PermissionError] when it may not be read, [UnicodeDecodeError] when
    its bytes are no text in the encoding [open] uses, [ValueError] when
    an integer literal is longer than [int] accepts; or [json.load]
    returns a document.  In each state but the first the file is there
    and can be written and removed. *)
Inductive file_state :=
  | NoFile
  | NotJson
  | Unreadable (e : exn)
  | Json (doc : json_doc).

(** [open(RECENT_PLAYERS_FILE, 'r')] followed by [json.load(f)] *)
Definition open_json (fs : file_state) : result json_doc :=
  match fs with
  | NoFile => Raise FileNotFoundError
  | NotJson => Raise JSONDecodeError
  | Unreadable e => Raise e
  | Json doc => Ok doc
  end.

(** [data.items()] *)
Definition items (data : json_doc) : result (list (key * Z)) :=
  match data with
  | JObject members => Ok members
  | JOther => Raise AttributeError
  end.

(** [datetime.fromisoformat(date_str)] *)
Definition fromisoformat (date_str : key) : result datetime :=
  match date_str with
  | KDate d => Ok d
  | KText _ => Raise ValueError
  end.

(** The loop of [load_recent_players]. *)
Fixpoint load_items (its : list (key * Z)) (recent_players : dict datetime Z)
  : result (dict datetime Z) :=
  match its with
  | [] => Ok recent_players
  | (date_str, player_id) :: rest =>
      d ← fromisoformat date_str;
      load_items rest (dict_set recent_players d player_id)
  end.

Definition load_recent_players (fs : file_state) : result (dict datetime Z) :=
  match (data ← open_json fs; its ← items data; load_items its []) with
  | Raise FileNotFoundError | Raise JSONDecodeError => Ok []
  | r => r
  end.

(** [save_recent_players(recent_players)]: the file it leaves. *)
Definition save_recent_players (recent_players : dict datetime Z) : file_state :=
  Json (JObject ((fun e => (KDate e.1, e.2)) <$> recent_players)).

(** ** The daily selector *)

(** The module state the routes read: [app.debug], the global
    [current_player_index] and the frame [players_df]. *)
Record App := {
  debug : bool;
  current_player_index : option Z;
  players_df : list Player
}.

(** [players_df.iloc[idx]['... league appearances'] > 0], for [idx] in
    [range(len(players_df))]. *)
Definition has_league_appearance (df : list Player) (idx : Z) : bool :=
  match iloc df idx with
  | Ok s => 0 <? league_appearances (row s)
  | Raise _ => false
  end.

Definition all_indices (df : list Player) : list Z :=
  filter (fun idx => has_league_appearance df idx = true)
         (seqZ 0 (Z.of_nat (length df))).

(** The index the debug route has set, when there is one and the
    application runs in debug mode:
    [app.debug and current_player_index is not None]. *)
Definition override (app : App) : option Z :=
  if debug app then current_player_index app else None.

(** [get_daily_player()], with the date the clock gives and the history
    file before and after. *)
Definition get_daily_player `{PyRandom} (app : App) (today : date)
    (fs : file_state) : result Series * file_state :=
  match override app with
  | Some i => (iloc (players_df app) i, fs)
  | None =>
      match load_recent_players fs with
      | Raise e => (Raise e, fs)
      | Ok recent_players =>
          let cutoff_date := today - 30 in
          let recent_players :=
            filter (fun e => cutoff_date <= dt_date e.1) recent_players in
          let today_key := midnight today in
          match dict_get recent_players today_key with
          | Some selected_index => (iloc (players_df app) selected_index, fs)
          | None =>
              let recently_used : gset Z := list_to_set (recent_players.*2) in
              let seed := year today * 1000 + tm_yday today in
              let rng := Random (SeedInt seed) in
              let all_indices := all_indices (players_df app) in
              let available_indices :=
                filter (fun idx => idx ∉ recently_used) all_indices in
              let available_indices :=
                match available_indices with
                | [] => all_indices
                | _ :: _ => available_indices
                end in
              match choice available_indices rng with
              | Raise e => (Raise e, fs)
              | Ok selected_index =>
                  let recent_players :=
                    dict_set recent_players today_key selected_index in
                  let fs := save_recent_players recent_players in
                  (iloc (players_df app) selected_index, fs)
              end
          end
      end
  end.

(** The indices the selector draws from: the eligible ones that are not in
    the history, or all the eligible ones when none is left. *)
Definition draw_pool (df : list Player) (recent_players : dict datetime Z)
  : list Z :=
  let recently_used : gset Z := list_to_set (recent_players.*2) in
  match filter (fun idx => idx ∉ recently_used) (all_indices df) with
  | [] => all_indices df
  | a :: l => a :: l
  end.

(** The selector called once on each day of [days], in order, on the file
    the previous call left. *)
Fixpoint play_days `{PyRandom} (app : App) (days : list date) (fs : file_state)
  : list (result Series) * file_state :=
  match days with
  | [] => ([], fs)
  | d :: days' =>
      let '(r, fs1) := get_daily_player app d fs in
      let '(rs, fs2) := play_days app days' fs1 in
      (r :: rs, fs2)
  end.

(** ** The routes *)

(** A route answers with a JSON body, or with status 500 and the text of
    the exception it caught. *)
Inductive response (A : Type) :=
  | Json200 (body : A)
  | Error500 (e : exn).
Arguments Json200 {A} body.
Arguments Error500 {A} e.

Record Challenge := {
  firstNameLength : nat;
  lastNameLength : nat;
  firstClue : str;
  player_id : Z;
  firstName : str;
  lastName : str
}.

(** [clues[0]] *)
Definition first_item {A} (l : list A) : result A :=
  match l with
  | a :: _ => Ok a
  | [] => Raise IndexError
  end.

(** [get_challenge()]: the route [/api/daily-challenge]. *)
Definition get_challenge `{PyRandom} (app : App) (today : date)
    (fs : file_state) : response Challenge * file_state :=
  let '(r, fs') := get_daily_player app today fs in
  let body :=
    player ← r;
    let clues := build_clues today player None in
    clue ← first_item clues;
    Ok {| firstNameLength := length (first_name (row player));
          lastNameLength := length (last_name (row player));
          firstClue := clue;
          player_id := label player;
          firstName := first_name (row player);
          lastName := last_name (row player) |} in
  match body with
  | Ok b => (Json200 b, fs')
  | Raise e => (Error500 e, fs')
  end.

Record GuessResult := {
  correct : bool;
  fullName : option str
}.

(** [normalize(s)] of [check_guess] *)
Definition normalize (s : str) : str :=
  replace RIGHT_DOUBLE_QUOTE QUOTATION_MARK
    (replace LEFT_DOUBLE_QUOTE QUOTATION_MARK
       (replace LEFT_SINGLE_QUOTE APOSTROPHE
          (replace RIGHT_SINGLE_QUOTE APOSTROPHE s))).

(** [check_guess()]: the route [/api/guess], for a request that carries an
    integer [player_id] and the two guessed names. *)
Definition check_guess `{PyLower} (app : App) (player_id : Z)
    (guess_first guess_last : str) : response GuessResult :=
  let guess_first := lower guess_first in
  let guess_last := lower guess_last in
  match iloc (players_df app) player_id with
  | Raise e => Error500 e
  | Ok player =>
      let is_correct :=
        bool_decide (normalize guess_first
                     = normalize (lower (first_name (row player))))
        && bool_decide (normalize guess_last
                        = normalize (lower (last_name (row player)))) in
      Json200 {| correct := is_correct;
                 fullName :=
                   if is_correct
                   then Some (strip (first_name (row player) ++ lit " "
                                       ++ last_name (row player)))
                   else None |}
  end.


(** ** Clue texts as templates *)

(** The text of a clue is a run of literal pieces of the source and of
    field values formatted into it. *)
Inductive seg :=
  | Lit (l : str)
  | Fld (f : str).

Fixpoint render (t : list seg) : str :=
  match t with
  | [] => []
  | Lit l :: t' => l ++ render t'
  | Fld f :: t' => f ++ render t'
  end.

(** [s.endswith(q)] *)
Definition endswith (q s : str) : bool := startswith (reverse q) (reverse s).

(** No beginning of [p] (short of [p] itself) ends the literal [l]. *)
Definition no_border (p l : str) : bool :=
  forallb (fun k => negb (endswith (take k p) l)) (seq 1 (length p - 1)).

(** [q] and [l] differ at a place both have. *)
Fixpoint diverge (q l : str) : bool :=
  match q, l with
  | a :: q', b :: l' => if (a =? b)%N then diverge q' l' else true
  | _, _ => false
  end.

(** No ending of [p] (short of [p] itself) can run on into the literal [l]. *)
Definition all_diverge (p l : str) : bool :=
  forallb (fun k => diverge (drop k p) l) (seq 1 (length p - 1)).

(** The literals of a template leave no room for [p]: it is in none of
    them, and no occurrence can lie across the edge of a field. *)
Fixpoint template_ok (p : str) (t : list seg) : bool :=
  match t with
  | [] => true
  | Lit l :: t' => negb (contains p l) && no_border p l && template_ok p t'
  | Fld _ :: t' =>
      match t' with
      | [] => true
      | Lit l :: _ => all_diverge p l && template_ok p t'
      | Fld _ :: _ => false
      end
  end.

(** ** Sample data *)

(** The record of the still-at-club example: open left-for text, one
    spell, seasons 2010–2024. *)
Definition lewis_dunk : Player :=
  {| name := lit "Lewis Dunk";
     date_of_birth := lit "21 November 1991";
     place_of_birth := lit "Brighton";
     country_of_birth := lit "England";
     position := lit "Defender";
     league_appearances := 436;
     league_goals := Some 28;
     number_of_spells := 1;
     team_played_for_before := lit "Youth";
     team_played_for_after := Some (lit "Still at club");
     seasons_played_at_Brighton := lit "2010" ++ [EN_DASH] ++ lit "2024";
     seasons_at_brighton_during_second_spell := [] |}.

(** A player who retired, whose other fields say nothing of it. *)
Definition bruno_saltor : Player :=
  {| name := lit "Bruno Saltor";
     date_of_birth := lit "1 October 1980";
     place_of_birth := lit "El Masnou";
     country_of_birth := lit "Spain";
     position := lit "Defender";
     league_appearances := 224;
     league_goals := Some 5;
     number_of_spells := 1;
     team_played_for_before := lit "Valencia";
     team_played_for_after := Some (lit "Retired");
     seasons_played_at_Brighton := lit "2012-2019";
     seasons_at_brighton_during_second_spell := [] |}.

(** A player who had retired before he joined, and retired again. *)
Definition comeback_player : Player :=
  {| name := lit "Sam Example";
     date_of_birth := lit "2 March 1985";
     place_of_birth := lit "Hove";
     country_of_birth := lit "England";
     position := lit "Goalkeeper";
     league_appearances := 3;
     league_goals := Some 0;
     number_of_spells := 1;
     team_played_for_before := lit "Retired (came back as cover)";
     team_played_for_after := Some (lit "Retired");
     seasons_played_at_Brighton := lit "2019-2020";
     seasons_at_brighton_during_second_spell := [] |}.

(** 1 January 2024 *)
Definition new_year_2024 : date := 738886.

(** A catalogue of three players, the first without a league appearance. *)
Definition unused_keeper : Player :=
  {| name := lit "Tom Example";
     date_of_birth := lit "5 May 1999";
     place_of_birth := lit "Lewes";
     country_of_birth := lit "England";
     position := lit "Goalkeeper";
     league_appearances := 0;
     league_goals := Some 0;
     number_of_spells := 1;
     team_played_for_before := lit "Youth";
     team_played_for_after := Some (lit "Worthing");
     seasons_played_at_Brighton := lit "2018-2019";
     seasons_at_brighton_during_second_spell := [] |}.

Definition small_app : App :=
  {| debug := false;
     current_player_index := None;
     players_df := [unused_keeper; lewis_dunk; bruno_saltor] |}.

(** A catalogue in which nobody has a league appearance. *)
Definition idle_app : App :=
  {| debug := false;
     current_player_index := None;
     players_df := [unused_keeper] |}.

Definition mark_omahony : Player :=
  {| name := lit "Mark O'Mahony";
     date_of_birth := lit "14 January 2005";
     place_of_birth := lit "Carrigaline";
     country_of_birth := lit "Ireland";
     position := lit "Forward";
     league_appearances := 6;
     league_goals := Some 0;
     number_of_spells := 1;
     team_played_for_before := lit "Cork City";
     team_played_for_after := Some (lit "Still at club");
     seasons_played_at_Brighton := lit "2023-";
     seasons_at_brighton_during_second_spell := [] |}.

Definition guess_app : App :=
  {| debug := false;
     current_player_index := None;
     players_df := [lewis_dunk; mark_omahony] |}.

(** ** Comparing names *)


(** A capital letter of Basic Latin or Latin-1; its small letter is 32
    places up. *)
Definition capital (c : N) : Prop :=
  (65 ≤ c ≤ 90)%N ∨ ((192 ≤ c ≤ 222)%N ∧ c ≠ 215%N).

(** The apostrophe and the two curly single quotes; the quotation mark and
    the two curly double quotes. *)
Definition single_quote (c : N) : Prop :=
  c = APOSTROPHE ∨ c = LEFT_SINGLE_QUOTE ∨ c = RIGHT_SINGLE_QUOTE.

Definition double_quote (c : N) : Prop :=
  c = QUOTATION_MARK ∨ c = LEFT_DOUBLE_QUOTE ∨ c = RIGHT_DOUBLE_QUOTE.

(** Two characters that differ at most in case and in the style of a
    quote: the same character, a capital letter and its small letter, two
    single quotes, or two double quotes. *)
Definition same_letter (a b : N) : Prop :=
  a = b
  ∨ (capital a ∧ b = (a + 32)%N)
  ∨ (capital b ∧ a = (b + 32)%N)
  ∨ (single_quote a ∧ single_quote b)
  ∨ (double_quote a ∧ double_quote b).

#[global] Instance same_letter_dec a b : Decision (same_letter a b).
Proof. unfold same_letter, capital, single_quote, double_quote. apply _. Defined.

(** A catalogue of thirty players, each with league appearances. *)
Definition thirty_app : App :=
  {| debug := false;
     current_player_index := None;
     players_df := replicate 30 lewis_dunk |}.

(** ** The other routes *)

(** [l[i]] for a Python list: a position counted from the end when
    negative, [IndexError] outside the list. *)
Definition getitem {A} (l : list A) (i : Z) : result A :=
  let n := Z.of_nat (length l) in
  let k := if i <? 0 then n + i else i in
  if (0 <=? k) && (k <? n) then
    match l !! Z.to_nat k with
    | Some a => Ok a
    | None => Raise IndexError
    end
  else Raise IndexError.

(** [get_clue()]: the route [/api/clues], for a request that carries an
    integer [player_id]; [clue_index] is [None] when the request has no
    such key. *)
Definition get_clue `{PyRandom} (app : App) (today : date) (player_id : Z)
    (clue_index : option Z) : response str :=
  let body :=
    player ← iloc (players_df app) player_id;
    let clues :=
      build_clues today player
        (Some (SeedStr (str_of_date today ++ str_of_Z player_id))) in
    getitem clues (default 0 clue_index) in
  match body with
  | Ok clue => Json200 clue
  | Raise e => Error500 e
  end.

(** The answer of a route that is not wrapped in [try]: a JSON body with
    status 200, an error text with status 400 or 403, or status 500 for an
    exception that leaves the route. *)
Inductive reply (A : Type) :=
  | Reply200 (body : A)
  | Reply400 (error : str)
  | Reply403 (error : str)
  | Reply500 (e : exn).
Arguments Reply200 {A} body.
Arguments Reply400 {A} error.
Arguments Reply403 {A} error.
Arguments Reply500 {A} e.

(** [set_player()]: the route [/api/set-player]; [player_id] is [None] when
    the request has no such key.  The body of the 200 answer is the value
    of ['success']. *)
Definition set_player (app : App) (player_id : option Z) : reply bool * App :=
  if negb (debug app) then (Reply403 (lit "Not allowed in production"), app)
  else
    let idx := default 0 player_id in
    if (0 <=? idx) && (idx <? Z.of_nat (length (players_df app))) then
      (Reply200 true,
       {| debug := debug app;
          current_player_index := Some idx;
          players_df := players_df app |})
    else (Reply400 (lit "Invalid player index"), app).

Record RecentEntry := {
  entry_date : str;
  entry_player_id : Z;
  entry_player_name : str
}.

Record RecentListing := {
  listed_players : list RecentEntry;
  total_players : nat;
  recent_count : nat
}.

(** The loop of [debug_recent_players] over [recent_players.items()]. *)
Fixpoint recent_data (df : list Player) (today : date)
    (its : dict datetime Z) : result (list RecentEntry) :=
  match its with
  | [] => Ok []
  | (d, player_id) :: rest =>
      if decide (today - 30 <= dt_date d) then
        player ← iloc df player_id;
        data ← recent_data df today rest;
        Ok ({| entry_date := str_of_date (dt_date d);
               entry_player_id := player_id;
               entry_player_name := name (row player) |} :: data)
      else recent_data df today rest
  end.

(** [not ADMIN_KEY or provided_key != ADMIN_KEY] *)
Definition key_refused (ADMIN_KEY provided_key : option str) : bool :=
  negb (match ADMIN_KEY with Some k => truthy k | None => false end)
  || negb (bool_decide (provided_key = ADMIN_KEY)).

(** [debug_recent_players()]: the route [/api/debug/recent-players].
    [ADMIN_KEY] is the environment variable, [provided_key] the [key]
    argument of the request, each [None] when absent. *)
Definition debug_recent_players (app : App) (ADMIN_KEY provided_key : option str)
    (today : date) (fs : file_state) : reply RecentListing :=
  if negb (debug app) && key_refused ADMIN_KEY provided_key
  then Reply403 (lit "Not allowed in production")
  else
    let body :=
      recent_players ← load_recent_players fs;
      data ← recent_data (players_df app) today recent_players;
      Ok {| listed_players := data;
            total_players := length (players_df app);
            recent_count := length data |} in
    match body with
    | Ok b => Reply200 b
    | Raise e => Reply500 e
    end.

(** [debug_reset_recent()]: the route [/api/debug/reset-recent], with the
    history file before and after.  The body is the value of ['message']. *)
Definition debug_reset_recent (app : App) (fs : file_state)
  : reply str * file_state :=
  if negb (debug app) then (Reply403 (lit "Not allowed in production"), fs)
  else
    match fs with
    | NoFile => (Reply200 (lit "No recent players file to reset"), NoFile)
    | _ => (Reply200 (lit "Recent players reset"), NoFile)
    end.

(** ** [scrape_player.py]: the URL of a player *)

(** [s.rsplit(',', 1)] into the text before the last comma and the text
    after it; [None] when [s] holds no comma (the list has one part
    then). *)
Fixpoint rsplit_comma (s : str) : option (str * str) :=
  match s with
  | [] => None
  | c :: s' =>
      match rsplit_comma s' with
      | Some (a, b) => Some (c :: a, b)
      | None => if (c =? 44)%N then Some ([], s') else None
      end
  end.

(** The loop of [get_player_url] over the lines after the header: a line
    without a comma fails to unpack ([ValueError]) and is passed over. *)
Fixpoint find_player_url (name : str) (lines : list str) : option str :=
  match lines with
  | [] => None
  | line :: rest =>
      match rsplit_comma (strip line) with
      | Some (player_name, player_url) =>
          if bool_decide (player_name = name) then Some player_url
          else find_player_url name rest
      | None => find_player_url name rest
      end
  end.

(** [get_player_url(name, csv_file)]; [file] is [None] when the file
    cannot be opened and its lines otherwise.  An empty file fails at
    [next(f)]; both failures are caught and give [None]. *)
Definition get_player_url (name : str) (file : option (list str)) : option str :=
  match file with
  | None => None
  | Some [] => None
  | Some (header :: lines) => find_player_url name lines
  end.

(** The three-player catalogue in debug mode, no override set. *)
Definition debug_app : App :=
  {| debug := true;
     current_player_index := None;
     players_df := [unused_keeper; lewis_dunk; bruno_saltor] |}.

(** A history with an entry for 1 January 2024, and the challenge the
    two-player catalogue serves on that day. *)
Definition new_year_file : file_state :=
  Json (JObject [(KDate (midnight new_year_2024), 1)]).

Definition omahony_challenge : Challenge :=
  {| firstNameLength := 4;
     lastNameLength := 8;
     firstClue :=
       lit "This player was born in Carrigaline, Ireland and has 1 spell(s) at Brighton.";
     player_id := 1;
     firstName := lit "Mark";
     lastName := lit "O'Mahony" |}.

(** The override is a position of the catalogue, when there is one. *)
Definition override_in_range (app : App) : Prop :=
  match current_player_index app with
  | Some i => 0 <= i < Z.of_nat (length (players_df app))
  | None => True
  end.

(** The line reads [name,url] once stripped, with no comma in [url]. *)
Definition names_player (name url line : str) : Prop :=
  strip line = name ++ lit "," ++ url ∧ 44%N ∉ url.

(** The history loads, and every index it holds is an eligible one. *)
Definition history_sound (app : App) (fs : file_state) : Prop :=
  ∃ m, load_recent_players fs = Ok m
       ∧ Forall (fun e => e.2 ∈ all_indices (players_df app)) m.

(** ** [clean_csv.py] *)

(** [re.findall] with the first pattern of the script (a doubled quote, a
    lazy group of any characters, a doubled quote) on one line of a text
    file, which holds no newline: the texts between a doubled quote and the
    next doubled quote, left to right.  [inside] holds, in reverse, what has
    been read since an opening doubled quote. *)
Fixpoint findall_doubled (inside : option str) (line : str) : list str :=
  match line with
  | [] => []
  | c :: t =>
      match t with
      | [] => []
      | d :: r =>
          if (c =? 34)%N && (d =? 34)%N then
            match inside with
            | None => findall_doubled (Some []) r
            | Some acc => reverse acc :: findall_doubled None r
            end
          else
            match inside with
            | None => findall_doubled None t
            | Some acc => findall_doubled (Some (c :: acc)) t
            end
      end
  end.

(** [re.findall] with the second pattern of the script (a quote, a lazy
    group, a quote), likewise. *)
Fixpoint findall_quoted (inside : option str) (line : str) : list str :=
  match line with
  | [] => []
  | c :: t =>
      if (c =? 34)%N then
        match inside with
        | None => findall_quoted (Some []) t
        | Some acc => reverse acc :: findall_quoted None t
        end
      else
        match inside with
        | None => findall_quoted None t
        | Some acc => findall_quoted (Some (c :: acc)) t
        end
  end.

(** [sep.join(fields)] *)
Fixpoint join (sep : str) (fields : list str) : str :=
  match fields with
  | [] => []
  | [f] => f
  | f :: rest => f ++ sep ++ join sep rest
  end.

(** What the script writes for line number [i] of the input, without the
    newline it adds. *)
Definition clean_line (i : nat) (line : str) : str :=
  let line := strip line in
  match i with
  | O => line
  | S _ =>
      let fields := findall_doubled None line in
      let fields :=
        match fields with
        | [] => findall_quoted None line
        | _ :: _ => fields
        end in
      join (lit ",") fields
  end.

(** The lines of the output file for the lines of the input file. *)
Definition clean_csv (lines : list str) : list str := imap clean_line lines.

(** A field wrapped in doubled quotes, and a row of such fields. *)
Definition doubled (f : str) : str :=
  [QUOTATION_MARK; QUOTATION_MARK] ++ f ++ [QUOTATION_MARK; QUOTATION_MARK].

Definition doubled_row (fields : list str) : str :=
  join (lit ",") (doubled <$> fields).

(** ** [scrape_player.py]: the career read from the infobox *)

(** A row of [parse_infobox_club_career]. *)
Record ClubRow := {
  years : str;
  club : str;
  apps : Z;
  goals : Z
}.

(** The columns that [scrape_player_info] fills from the club rows of the
    infobox when the page has no career table. *)
Record Career := {
  career_appearances : Z;
  career_goals : Z;
  career_spells : nat;
  career_seasons : str;
  career_seasons_second_spell : str;
  career_before : str;
  career_after : str
}.

(** ['Brighton' in row['club']] *)
Definition at_brighton (r : ClubRow) : Prop :=
  contains (lit "Brighton") (club r) = true.

#[global] Instance at_brighton_dec r : Decision (at_brighton r).
Proof. unfold at_brighton. apply _. Defined.

(** The branch of [scrape_player_info] that reads the career from
    [club_rows]. *)
Definition infobox_career (club_rows : list ClubRow) : Career :=
  let brighton_rows := filter at_brighton club_rows in
  let first_brighton_idx := fst <$> list_find at_brighton club_rows in
  {| career_appearances := foldr Z.add 0 (apps <$> brighton_rows);
     career_goals := foldr Z.add 0 (goals <$> brighton_rows);
     career_spells := length brighton_rows;
     career_seasons :=
       match brighton_rows with
       | r :: _ => years r
       | [] => []
       end;
     career_seasons_second_spell :=
       match brighton_rows with
       | _ :: r :: _ => years r
       | _ => []
       end;
     career_before :=
       match first_brighton_idx with
       | Some (S i) =>
           match club_rows !! i with
           | Some r => club r
           | None => []
           end
       | _ => lit "N/A (First Club)"
       end;
     career_after :=
       match first_brighton_idx with
       | Some i =>
           match club_rows !! (i + 1)%nat with
           | Some r =>
               if contains (lit "Brighton") (club r) then lit "Still at club"
               else club r
           | None => lit "Still at club"
           end
       | None => lit "Still at club"
       end |}.
(** * Properties *)

(** ** The functions at work *)

Example split_name_two_parts :
  split_name (lit "Alexis Mac Allister") = (lit "Alexis", lit "Mac Allister").
Proof. reflexivity. Qed.

Example split_name_one_part : split_name (lit "Bernardo") = (lit "Bernardo", []).
Proof. reflexivity. Qed.

Example extract_era_two_decades :
  _extract_era (lit "1998-2003") = lit "the 1990s and 2000s".
Proof. reflexivity. Qed.

Example extract_era_one_decade : _extract_era (lit "2010-2015") = lit "the 2010s".
Proof. reflexivity. Qed.

(** The digits of another script are read as well: 2010 in Arabic-Indic
    digits. *)
Example extract_era_arabic_indic_digits :
  _extract_era ([1634; 1632; 1633; 1632]%N ++ lit "-2014") = lit "the 2010s".
Proof. by vm_compute. Qed.

(** [lower_char] on both sides of Latin-1. *)
Example lower_char_latin1 :
  lower_char <$> [65; 90; 192; 215; 222; 223; 255]%N
  = [97; 122; 224; 215; 254; 223; 255]%N.
Proof. reflexivity. Qed.

Example new_year_2024_date :
  _ord2ymd new_year_2024 = (2024, 1, 1)
  ∧ tm_yday (new_year_2024 + 59) = 60
  ∧ str_of_date (new_year_2024 + 365) = lit "2024-12-31".
Proof. by vm_compute. Qed.

Example build_clues_lewis_dunk :
  @build_clues counter_random new_year_2024
    {| label := 72; row := lewis_dunk |} (Some (SeedInt 42))
  = [ lit "Seasons at Brighton: 2010" ++ [EN_DASH] ++ lit "2024";
      lit "This player was born in Brighton, England and has 1 spell(s) at Brighton.";
      lit "This player made 436 league appearances for Brighton.";
      lit "This player joined Brighton from Youth";
      lit "This player scored 28 league goals for Brighton.";
      lit "This player is still at the club.";
      lit "This player is a Defender." ].
Proof. by vm_compute. Qed.

Example three_days_of_small_app :
  label <$> omap (fun r => match r with Ok s => Some s | Raise _ => None end)
    (@play_days counter_random small_app (seqZ new_year_2024 3) NoFile).1
  = [2; 1; 2].
Proof. by vm_compute. Qed.

(** ** The shuffle returns its argument rearranged *)

Lemma list_insert_perm {A} (x : list A) i a y :
  x !! i = Some a → <[i:=y]> x ≡ₚ y :: delete i x.
Proof.
  revert i. induction x as [|b x IH]; intros [|i] Hi; simplify_eq/=; try done.
  rewrite (IH _ Hi). apply Permutation_swap.
Qed.

Lemma swap_perm {A} (x : list A) i j : swap x i j ≡ₚ x.
Proof.
  unfold swap. destruct (x !! i) as [a|] eqn:Hi; [|done].
  destruct (x !! j) as [b|] eqn:Hj; [|done].
  destruct (decide (i = j)) as [->|Hne].
  - simplify_eq. rewrite list_insert_insert_eq. by rewrite list_insert_id.
  - assert (Hj' : <[i:=b]> x !! j = Some b) by (by rewrite list_lookup_insert_ne).
    rewrite (list_insert_perm _ _ _ _ Hj').
    pose proof (delete_Permutation _ _ _ Hj') as H1.
    rewrite (list_insert_perm _ _ _ _ Hi) in H1 at 1.
    apply Permutation_cons_inv in H1. rewrite <- H1.
    symmetry. by apply delete_Permutation.
Qed.

Lemma shuffle_from_perm `{PyRandom} {A} i (x : list A) g :
  (shuffle_from i x g).1 ≡ₚ x.
Proof.
  revert x g. induction i as [|i IH]; intros x g; simpl; [done|].
  destruct (randbelow (S (i + 1)) g) as [j g'].
  rewrite IH. apply swap_perm.
Qed.

Lemma shuffle_perm `{PyRandom} {A} (x : list A) g : (shuffle x g).1 ≡ₚ x.
Proof. apply shuffle_from_perm. Qed.

Lemma clue_defs_tiers `{PyRandom} p s :
  ∃ t1 t2 t3,
    clue_defs p s = t1 ++ t2 ++ t3
    ∧ t1 ≡ₚ nonblank (tier_1 p)
    ∧ t2 ≡ₚ nonblank (tier_2 p)
    ∧ t3 ≡ₚ nonblank (tier_3 p).
Proof.
  unfold clue_defs.
  pose proof (shuffle_perm (nonblank (tier_1 p)) (Random s)) as H1.
  destruct (shuffle (nonblank (tier_1 p)) (Random s)) as [t1 g1].
  pose proof (shuffle_perm (nonblank (tier_2 p)) g1) as H2.
  destruct (shuffle (nonblank (tier_2 p)) g1) as [t2 g2].
  pose proof (shuffle_perm (nonblank (tier_3 p)) g2) as H3.
  destruct (shuffle (nonblank (tier_3 p)) g2) as [t3 g3].
  by exists t1, t2, t3.
Qed.

Lemma elem_of_clue_defs `{PyRandom} p s d :
  d ∈ clue_defs p s ↔ d ∈ nonblank (tier_1 p ++ tier_2 p ++ tier_3 p).
Proof.
  destruct (clue_defs_tiers p s) as (t1 & t2 & t3 & -> & H1 & H2 & H3).
  unfold nonblank in *. rewrite !filter_app, !elem_of_app.
  by rewrite H1, H2, H3.
Qed.

(** ** The selection loop *)

(** No two entries of the list have a tag in common. *)
Fixpoint tags_apart (l : list clue_def) : Prop :=
  match l with
  | [] => True
  | d :: l' => Forall (fun e => d.2 ## e.2) l' ∧ tags_apart l'
  end.

Lemma tags_apart_snoc l d :
  tags_apart l → Forall (fun e => e.2 ## d.2) l → tags_apart (l ++ [d]).
Proof.
  induction l as [|e l IH]; simpl; [by auto|].
  intros [He Hl] Hd. inversion_clear Hd as [|? ? Hed Hld]. split; [|by auto].
  apply Forall_app. split; [done|]. by constructor.
Qed.

Lemma tags_apart_lookup l i j d1 d2 :
  tags_apart l → i ≠ j → l !! i = Some d1 → l !! j = Some d2 → d1.2 ## d2.2.
Proof.
  revert i j. induction l as [|e l IH]; intros i j Hl Hij Hi Hj; [done|].
  destruct Hl as [He Hl]. rewrite Forall_forall in He.
  destruct i as [|i], j as [|j]; simplify_eq/=.
  - apply He. by eapply list_elem_of_lookup_2.
  - symmetry. apply He. by eapply list_elem_of_lookup_2.
  - eapply (IH i j); eauto.
Qed.

Lemma filter_none {A} (P : A → Prop) `{∀ x, Decision (P x)} (l : list A) :
  Forall (fun x => ¬ P x) l → filter P l = [].
Proof.
  induction 1 as [|x l Hx Hl IH]; [done|]. by rewrite filter_cons_False.
Qed.

Lemma tags_apart_fact l (fact : string) :
  tags_apart l → (length (filter (fun d => fact ∈ d.2) l) ≤ 1)%nat.
Proof.
  induction l as [|e l IH]; simpl; [lia|]. intros [He Hl].
  rewrite filter_cons. destruct (decide (fact ∈ e.2)) as [Hin|]; [|by auto].
  assert (filter (fun d : clue_def => fact ∈ d.2) l = []) as ->; [|simpl; lia].
  apply filter_none. rewrite Forall_forall in He |- *.
  intros d Hd Hfd. apply (He d Hd fact); done.
Qed.

(** The loop that keeps the tags and the loop of the source append the
    same clues. *)
Lemma add_clue_add_def defs U K :
  foldl add_clue (U, K.*1) defs =
  ((foldl add_def (U, K) defs).1, (foldl add_def (U, K) defs).2.*1).
Proof.
  revert U K. induction defs as [|[c t] defs IH]; intros U K; simpl; [done|].
  destruct (decide (t ∩ U = ∅)); [|by apply IH].
  rewrite <- IH. by rewrite fmap_app.
Qed.

Lemma select_clues_defs defs : select_clues defs = (select_defs defs).*1.
Proof.
  unfold select_clues, select_defs.
  by rewrite (add_clue_add_def defs ∅ []).
Qed.

Lemma add_def_apart defs U K :
  (∀ d, d ∈ K → d.2 ⊆ U) → tags_apart K →
  tags_apart (foldl add_def (U, K) defs).2.
Proof.
  revert U K. induction defs as [|d defs IH]; intros U K HU HK; simpl; [done|].
  destruct (decide (d.2 ∩ U = ∅)) as [Hd|]; [|by apply IH].
  apply IH.
  - intros e [He| ->%list_elem_of_singleton]%elem_of_app; [|set_solver].
    specialize (HU e He). set_solver.
  - apply tags_apart_snoc; [done|]. apply Forall_forall. intros e He.
    specialize (HU e He). set_solver.
Qed.

Lemma add_def_sublist defs U K :
  ∃ K', (foldl add_def (U, K) defs).2 = K ++ K' ∧ sublist K' defs.
Proof.
  revert U K. induction defs as [|d defs IH]; intros U K; simpl.
  - exists []. by rewrite app_nil_r.
  - destruct (decide (d.2 ∩ U = ∅)).
    + destruct (IH (U ∪ d.2) (K ++ [d])) as (K' & -> & HK').
      exists (d :: K'). rewrite <- app_assoc. split; [done|]. by constructor.
    + destruct (IH U K) as (K' & -> & HK').
      exists K'. split; [done|]. by constructor.
Qed.

Lemma select_defs_sublist defs : sublist (select_defs defs) defs.
Proof.
  destruct (add_def_sublist defs ∅ []) as (K' & HK & Hsub).
  unfold select_defs. by rewrite HK.
Qed.

(** An entry whose tags meet those of no other entry is kept. *)
Lemma add_def_keeps defs U K d :
  (d ∈ K ∨ (d ∈ defs ∧ d.2 ## U)) →
  (∀ e, e ∈ defs → e ≠ d → e.2 ## d.2) →
  d ∈ (foldl add_def (U, K) defs).2.
Proof.
  revert U K. induction defs as [|e defs IH]; intros U K Hd Hothers; simpl.
  - destruct Hd as [|[Hd _]]; [done|]. by apply elem_of_nil in Hd.
  - assert (Hrest : ∀ e', e' ∈ defs → e' ≠ d → e'.2 ## d.2)
      by (intros e' He'; apply Hothers; by right).
    destruct (decide (e.2 ∩ U = ∅)) as [He|He].
    + apply IH; [|done]. destruct Hd as [Hd|[Hd HdU]].
      * left. apply elem_of_app. by left.
      * destruct (decide (e = d)) as [->|Hne].
        { left. apply elem_of_app. right. by apply list_elem_of_singleton. }
        right. apply elem_of_cons in Hd as [->|Hd]; [done|]. split; [done|].
        assert (e.2 ## d.2) by (apply Hothers; [by left|done]). set_solver.
    + apply IH; [|done]. destruct Hd as [Hd|[Hd HdU]]; [by left|].
      right. apply elem_of_cons in Hd as [->|Hd]; [|done].
      exfalso. apply He. set_solver.
Qed.

Lemma select_defs_keeps defs d :
  d ∈ defs → (∀ e, e ∈ defs → e ≠ d → e.2 ## d.2) → d ∈ select_defs defs.
Proof.
  intros Hd Hothers. apply add_def_keeps; [|done]. right. split; [done|].
  set_solver.
Qed.

Lemma build_clues_tagged `{PyRandom} today player s :
  build_clues today player s = (tagged_clues today player s).*1.
Proof. apply select_clues_defs. Qed.

(** C1. For every player, every seed and every generator, the clues that
    [build_clues] returns are the texts of [tagged_clues], a selection of
    the candidate list in its order, in which no two clues (at different
    places) have a tag in common; so each fact tag is carried by at most
    one of the returned clues. *)
Theorem build_clues_fact_dedup `{PyRandom} (today : date) (player : Series)
    (s : option seed) :
  let kept := tagged_clues today player s in
  build_clues today player s = kept.*1
  ∧ (∃ sd, sublist kept (clue_defs (row player) sd))
  ∧ (∀ i j d1 d2, i ≠ j → kept !! i = Some d1 → kept !! j = Some d2 →
       d1.2 ∩ d2.2 = ∅)
  ∧ (∀ fact : string, (length (filter (fun d => fact ∈ d.2) kept) ≤ 1)%nat).
Proof.
  assert (Hap : tags_apart (tagged_clues today player s)).
  { apply add_def_apart; [|done]. intros d Hd. by apply elem_of_nil in Hd. }
  split; [apply build_clues_tagged|]. split; [|split].
  - eexists. apply select_defs_sublist.
  - intros i j d1 d2 Hij H1 H2. apply disjoint_intersection_L.
    by eapply tags_apart_lookup.
  - intros fact. by apply tags_apart_fact.
Qed.

(** ** Where a substring can lie in a formatted text *)

Lemma startswith_app_inv p a b :
  startswith p (a ++ b) = true →
  startswith p a = true ∨ ∃ q, p = a ++ q ∧ startswith q b = true.
Proof.
  revert p. induction a as [|c a IH]; intros p Hp.
  - right. by exists p.
  - destruct p as [|x p]; [by left|]. simpl in *.
    apply andb_true_iff in Hp as [Hx Hp].
    destruct (IH p Hp) as [Ha|(q & -> & Hq)].
    + left. by rewrite Hx.
    + right. exists q. apply N.eqb_eq in Hx as ->. done.
Qed.

Lemma startswith_refl p : startswith p p = true.
Proof. induction p as [|c p IH]; simpl; [done|]. by rewrite N.eqb_refl. Qed.

Lemma startswith_app p r : startswith p (p ++ r) = true.
Proof. induction p as [|c p IH]; simpl; [done|]. by rewrite N.eqb_refl. Qed.

Lemma contains_cons p c s : contains p s = true → contains p (c :: s) = true.
Proof. intros Hs. simpl. rewrite Hs. apply orb_true_r. Qed.

(** An occurrence of [p] in [a ++ b] lies in [a], lies in [b], or starts in
    [a] and runs on into [b]. *)
Lemma contains_app_inv p a b :
  contains p (a ++ b) = true →
  contains p a = true ∨ contains p b = true
  ∨ ∃ k, (0 < k < length p)%nat
         ∧ take k p `suffix_of` a ∧ startswith (drop k p) b = true.
Proof.
  induction a as [|c a IH]; intros Hp; [by auto|].
  change ((c :: a) ++ b) with (c :: (a ++ b)) in Hp.
  cbn [contains] in Hp. apply orb_true_iff in Hp as [Hp|Hp].
  - change (c :: (a ++ b)) with ((c :: a) ++ b) in Hp.
    apply startswith_app_inv in Hp as [Hp|(q & -> & Hq)].
    + left. cbn [contains]. by rewrite Hp.
    + destruct q as [|x q].
      * left. rewrite app_nil_r. cbn [contains].
        by rewrite startswith_refl.
      * right; right. exists (length (c :: a)).
        rewrite length_app, take_app_length, drop_app_length.
        split; [simpl; lia|]. done.
  - destruct (IH Hp) as [Ha|[Hb|(k & Hk & Hsuf & Hpre)]]; [| by auto |].
    + left. by apply contains_cons.
    + right; right. exists k. split; [done|]. split; [|done].
      by apply suffix_cons_r.
Qed.

Lemma endswith_suffix q s : q `suffix_of` s → endswith q s = true.
Proof.
  intros [k ->]. unfold endswith. rewrite reverse_app. apply startswith_app.
Qed.

Lemma no_border_spec p l k :
  no_border p l = true → (0 < k < length p)%nat → ¬ take k p `suffix_of` l.
Proof.
  unfold no_border. rewrite forallb_forall. intros Hall Hk Hsuf.
  specialize (Hall k). rewrite (endswith_suffix _ _ Hsuf) in Hall.
  assert (In k (seq 1 (length p - 1))) as Hin by (apply in_seq; lia).
  by specialize (Hall Hin).
Qed.

Lemma diverge_startswith q l r : diverge q l = true → startswith q (l ++ r) = false.
Proof.
  revert l. induction q as [|a q IH]; intros [|b l] Hd; simplify_eq/=.
  destruct (N.eqb_spec a b) as [->|]; [|done]. simpl. by apply IH.
Qed.

Lemma all_diverge_spec p l r k :
  all_diverge p l = true → (0 < k < length p)%nat →
  startswith (drop k p) (l ++ r) = false.
Proof.
  unfold all_diverge. rewrite forallb_forall. intros Hall Hk.
  apply diverge_startswith, Hall, in_seq. lia.
Qed.

(** A template whose literals leave no room for [p] holds [p] only if one
    of its fields does. *)
Lemma template_sound p t :
  p ≠ [] →
  template_ok p t = true →
  (∀ f, Fld f ∈ t → contains p f = false) →
  contains p (render t) = false.
Proof.
  intros Hp. induction t as [|s t IH]; intros Hok Hf.
  - by destruct p.
  - assert (Hf' : ∀ f, Fld f ∈ t → contains p f = false)
      by (intros f ?; apply Hf; by right).
    destruct s as [l|f]; cbn [template_ok render] in *.
    + apply andb_true_iff in Hok as [Hok Ht].
      apply andb_true_iff in Hok as [Hl Hb]. apply negb_true_iff in Hl.
      specialize (IH Ht Hf').
      destruct (contains p (l ++ render t)) eqn:Hc; [|done].
      apply contains_app_inv in Hc as [Hc|[Hc|(k & Hk & Hsuf & _)]];
        [congruence|congruence|].
      by destruct (no_border_spec p l k Hb Hk).
    + assert (Hpf : contains p f = false) by (apply Hf; by left).
      destruct t as [|[l|f'] t']; [by rewrite app_nil_r| |done].
      apply andb_true_iff in Hok as [Hd Ht]. specialize (IH Ht Hf').
      destruct (contains p (f ++ render (Lit l :: t'))) eqn:Hc; [|done].
      apply contains_app_inv in Hc as [Hc|[Hc|(k & Hk & _ & Hpre)]];
        [congruence|congruence|].
      cbn [render] in Hpre.
      by rewrite (all_diverge_spec p l (render t') k Hd Hk) in Hpre.
Qed.

(** ** Which candidates are blank, which are kept *)

Lemma lstrip_with_snoc f l c :
  f c = false → lstrip_with f (l ++ [c]) ≠ [].
Proof.
  intros Hc. induction l as [|a l IH]; simpl; [by rewrite Hc|].
  by destruct (f a).
Qed.

Lemma strip_with_nonblank f c s : f c = false → truthy (strip_with f (c :: s)) = true.
Proof.
  intros Hc. unfold strip_with. simpl. rewrite Hc, reverse_cons.
  pose proof (lstrip_with_snoc f (reverse s) c Hc) as Hne.
  destruct (lstrip_with f (reverse s ++ [c])) as [|a l] eqn:E; [done|].
  rewrite reverse_cons. by destruct (reverse l).
Qed.

(** A text that starts with a letter is not blank. *)
Lemma strip_nonblank c l s :
  isspace c = false → truthy (strip ((c :: l) ++ s)) = true.
Proof. intros Hc. by apply strip_with_nonblank. Qed.

Ltac nonblank_lit :=
  lazymatch goal with
  | |- truthy (strip (lit ?x ++ _)) = true =>
      let l := eval vm_compute in (lit x) in
      change (lit x) with l; by apply strip_nonblank
  end.

(** The era clue is never entered: it is asked for only when there is no
    seasons text, and then there is no era to tell. *)
Lemma era_entry_blank p :
  (if negb (truthy (seasons_played_at_Brighton p)) then era_clue p else []) = [].
Proof.
  unfold era_clue. by destruct (seasons_played_at_Brighton p).
Qed.

Ltac candidates H :=
  unfold tier_1, tier_2, tier_3 in H;
  repeat (apply elem_of_app in H as [H|H]);
  repeat (apply elem_of_cons in H as [H|H]);
  try (by apply elem_of_nil in H).

Lemma elem_of_nonblank d tier :
  d ∈ nonblank tier ↔ truthy (strip d.1) = true ∧ d ∈ tier.
Proof. unfold nonblank. by rewrite list_elem_of_filter. Qed.

(** A candidate that is not blank and does not tell the birth is kept. *)
Lemma candidate_kept `{PyRandom} p s d :
  d ∈ tier_1 p ++ tier_2 p ++ tier_3 p →
  truthy (strip d.1) = true →
  "birth" ∉ d.2 →
  d ∈ select_defs (clue_defs p s).
Proof.
  intros Hd Hnb Hbirth. apply select_defs_keeps.
  - apply elem_of_clue_defs, elem_of_nonblank. done.
  - intros e He%elem_of_clue_defs%elem_of_nonblank Hne. destruct He as [_ He].
    candidates Hd; candidates He; subst d e;
      first [ done
            | by (apply bool_decide_unpack; vm_compute)
            | by (simpl in *; set_solver) ].
Qed.

Lemma add_def_used defs U K x :
  x ∈ (foldl add_def (U, K) defs).1 → x ∈ U ∨ ∃ e, e ∈ defs ∧ x ∈ e.2.
Proof.
  revert U K. induction defs as [|d defs IH]; intros U K Hx; simpl in *; [by left|].
  destruct (decide (d.2 ∩ U = ∅)) as [Hd|Hd].
  - apply IH in Hx as [[Hx|Hx]%elem_of_union|(e & He & Hx)]; [by left| |].
    + right. exists d. split; [by left|done].
    + right. exists e. split; [by right|done].
  - apply IH in Hx as [Hx|(e & He & Hx)]; [by left|].
    right. exists e. split; [by right|done].
Qed.

(** An entry whose tags meet those of no entry before it is kept. *)
Lemma select_defs_keeps_first l1 d l2 :
  (∀ e, e ∈ l1 → e.2 ## d.2) → d ∈ select_defs (l1 ++ d :: l2).
Proof.
  intros Hl1. unfold select_defs. rewrite foldl_app. simpl.
  destruct (foldl add_def (∅, []) l1) as [U K] eqn:E. simpl.
  assert (HU : d.2 ∩ U = ∅).
  { apply disjoint_intersection_L. intros x Hxd HxU.
    pose proof (add_def_used l1 ∅ [] x) as Hx. rewrite E in Hx.
    destruct (Hx HxU) as [Hx'|(e & He & Hx')]; [set_solver|].
    by apply (Hl1 e He x). }
  rewrite decide_True by done.
  destruct (add_def_sublist l2 (U ∪ d.2) (K ++ [d])) as (K' & -> & _).
  set_solver.
Qed.

(** The birth-and-spells clue of the first tier is always kept ... *)
Lemma birth_spells_kept `{PyRandom} p s :
  ∃ d, d ∈ tier_1 p ∧ d.2 = {["birth"; "spells"]}
       ∧ d ∈ select_defs (clue_defs p s).
Proof.
  destruct (clue_defs_tiers p s) as (t1 & t2 & t3 & -> & H1 & _).
  eexists. split; [unfold tier_1; right; left|split; [done|]].
  match goal with |- ?d ∈ _ => set (b := d) end.
  assert (Hb : b ∈ t1).
  { rewrite H1. apply elem_of_nonblank. split; [|right; left].
    subst b. cbn [fst]. nonblank_lit. }
  apply list_elem_of_split_l in Hb as (l1 & l2 & -> & Hnotin).
  rewrite <- app_assoc. simpl. apply select_defs_keeps_first.
  intros e He.
  assert (He1 : e ∈ nonblank (tier_1 p)).
  { rewrite <- H1. apply elem_of_app. by left. }
  apply elem_of_nonblank in He1 as [_ He1].
  candidates He1; subst e; subst b; simpl; try set_solver.
Qed.

(** ... so the full birth clue of the third tier never is. *)
Lemma birth_full_dropped `{PyRandom} p s d :
  d ∈ select_defs (clue_defs p s) → d.2 ≠ {["birth"]}.
Proof.
  intros Hd Htags.
  destruct (birth_spells_kept p s) as (b & _ & Hb & Hbk).
  assert (Hap : tags_apart (select_defs (clue_defs p s))).
  { apply add_def_apart; [|done]. intros e He. by apply elem_of_nil in He. }
  apply list_elem_of_lookup in Hd as [i Hi].
  apply list_elem_of_lookup in Hbk as [j Hj].
  assert (i ≠ j) as Hij.
  { intros ->. rewrite Hi in Hj. simplify_eq. rewrite Htags in Hb. set_solver. }
  pose proof (tags_apart_lookup _ i j d b Hap Hij Hi Hj) as Hdis.
  rewrite Htags, Hb in Hdis. set_solver.
Qed.

Lemma tagged_clues_elem `{PyRandom} today player s d :
  d ∈ tagged_clues today player s →
  truthy (strip d.1) = true
  ∧ d ∈ tier_1 (row player) ++ tier_2 (row player) ++ tier_3 (row player)
  ∧ d.2 ≠ {["birth"]}.
Proof.
  intros Hd. unfold tagged_clues in Hd.
  pose proof (birth_full_dropped _ _ _ Hd) as Hb.
  pose proof (select_defs_sublist (clue_defs (row player)
    match s with Some s0 => s0 | None => default_seed today player end)) as Hsub.
  apply (elem_of_sublist _ _ _ Hd) in Hsub.
  apply elem_of_clue_defs, elem_of_nonblank in Hsub as [Hnb Hd']. done.
Qed.

Lemma build_clues_elem `{PyRandom} today player s clue :
  clue ∈ build_clues today player s ↔
  ∃ d, d ∈ tagged_clues today player s ∧ d.1 = clue.
Proof.
  rewrite build_clues_tagged, list_elem_of_fmap. naive_solver.
Qed.

(** No clue carries the era tag, and none starts the way the era clue
    does. *)
Lemma no_era_clue `{PyRandom} today player s d :
  d ∈ tagged_clues today player s →
  "era" ∉ d.2
  ∧ startswith (lit "This player played for Brighton during") d.1 = false.
Proof.
  intros (Hnb & Hd & _)%tagged_clues_elem.
  candidates Hd; subst d; cbn [fst snd] in *.
  1: by rewrite era_entry_blank in Hnb.
  all: clear Hnb.
  - split; [set_solver|by vm_compute].
  - split; [set_solver|]. cbn [fst]. by destruct (truthy _); vm_compute.
  - split; [set_solver|]. cbn [fst]. by destruct (truthy _); vm_compute.
  - split; [set_solver|by vm_compute].
  - split; [set_solver|]. cbn [fst]. unfold goals_clue.
    by destruct (league_goals _); vm_compute.
  - split; [set_solver|by vm_compute].
  - split; [set_solver|]. cbn [fst]. unfold left_for_clue.
    destruct (team_played_for_after _); [|done].
    destruct (contains _ _); [done|]. by destruct (bool_decide _); vm_compute.
  - split; [set_solver|by vm_compute].
  - split; [set_solver|by vm_compute].
Qed.

(** C6. The record of the example (left-for text "Still at club", seasons
    "2010–2024"), for every seed and generator: the clue list holds the
    clue "Seasons at Brighton: 2010–2024", holds no era clue, and holds
    the clue "This player is still at the club." -- the left-for clue is
    not held back. *)
Theorem still_at_club_clue_is_kept `{PyRandom} (today : date) (player : Series)
    (s : option seed) :
  team_played_for_after (row player) = Some (lit "Still at club") →
  seasons_played_at_Brighton (row player) = lit "2010" ++ [EN_DASH] ++ lit "2024" →
  lit "Seasons at Brighton: " ++ lit "2010" ++ [EN_DASH] ++ lit "2024"
    ∈ build_clues today player s
  ∧ (∀ d, d ∈ tagged_clues today player s →
       "era" ∉ d.2
       ∧ startswith (lit "This player played for Brighton during") d.1 = false)
  ∧ lit "This player is still at the club." ∈ build_clues today player s.
Proof.
  intros Hleft Hseasons. split; [|split].
  - apply build_clues_elem.
    exists (lit "Seasons at Brighton: " ++ lit "2010" ++ [EN_DASH] ++ lit "2024",
            {["seasons"]}).
    split; [|done]. apply candidate_kept; [| |set_solver].
    + unfold tier_1. rewrite Hseasons. do 2 right. left.
    + by vm_compute.
  - intros d. apply no_era_clue.
  - apply build_clues_elem.
    exists (lit "This player is still at the club.", {["left_for"]}).
    split; [|done]. apply candidate_kept; [| |set_solver].
    + apply elem_of_app. right. apply elem_of_app. left.
      unfold tier_2, left_for_clue. rewrite Hleft. do 3 right. left.
    + by vm_compute.
Qed.

Lemma still_at_club_clue_is_kept_witness :
  lit "Seasons at Brighton: " ++ lit "2010" ++ [EN_DASH] ++ lit "2024"
    ∈ @build_clues counter_random new_year_2024
        {| label := 72; row := lewis_dunk |} (Some (SeedInt 42))
  ∧ lit "This player is still at the club."
    ∈ @build_clues counter_random new_year_2024
        {| label := 72; row := lewis_dunk |} (Some (SeedInt 42)).
Proof.
  pose proof (@still_at_club_clue_is_kept counter_random new_year_2024
    {| label := 72; row := lewis_dunk |} (Some (SeedInt 42))
    eq_refl eq_refl) as (H1 & _ & H3).
  exact (conj H1 H3).
Defined.

(** ** What the clue texts can hold *)

Lemma startswith_head c p s : startswith (c :: p) s = true → c ∈ s.
Proof.
  destruct s as [|b s]; [done|]. simpl.
  intros [->%N.eqb_eq _]%andb_true_iff. by left.
Qed.

Lemma contains_head c p s : contains (c :: p) s = true → c ∈ s.
Proof.
  induction s as [|b s IH]; [done|]. cbn [contains].
  intros [Hs|Hs]%orb_true_iff; [by eapply startswith_head|].
  right. by apply IH.
Qed.

Lemma digits_isdigit d c : c ∈ digits d → isdigit c = true.
Proof.
  induction d; simpl; intros Hc; try (by apply elem_of_nil in Hc);
    apply elem_of_cons in Hc as [->|Hc]; auto.
Qed.

Lemma str_of_Z_chars z c : c ∈ str_of_Z z → isdigit c = true ∨ c = 45%N.
Proof.
  unfold str_of_Z. destruct (Z.to_int z) as [d|d].
  - intros Hc. left. by eapply digits_isdigit.
  - intros [->|Hc]%elem_of_cons; [by right|]. left. by eapply digits_isdigit.
Qed.

(** A text that starts with a letter is in no number. *)
Lemma contains_str_of_Z c p z :
  isdigit c = false → c ≠ 45%N → contains (c :: p) (str_of_Z z) = false.
Proof.
  intros Hc Hm. destruct (contains (c :: p) (str_of_Z z)) eqn:E; [|done].
  apply contains_head, str_of_Z_chars in E as [E| ->]; congruence.
Qed.

Lemma contains_render p t text :
  p ≠ [] → text = render t → template_ok p t = true →
  (∀ f, Fld f ∈ t → contains p f = false) →
  contains p text = false.
Proof. intros Hp -> Hok Hf. by apply template_sound. Qed.

Ltac fields_free Hf :=
  let f := fresh "f" in let H := fresh "H" in
  intros f H;
  repeat (apply elem_of_cons in H as [H|H]);
  [ first [ discriminate H
          | injection H as ->; first [ by apply contains_str_of_Z
                                     | apply Hf; set_solver ] ] ..
  | by apply elem_of_nil in H ].

Ltac by_template t Hf :=
  apply (contains_render _ t);
  [ by vm_compute
  | cbn [render]; by rewrite ?app_nil_r
  | by vm_compute
  | fields_free Hf ].

(** The clue texts hold one of the two tell-tale phrases of the left-for
    clue only where a field brings it, when the left-for clue is blank. *)
Lemma candidate_text_free (p : Player) (pat : str) d :
  pat = lit "left Brighton to join" ∨ pat = lit "Retired" →
  left_for_clue p = [] →
  Forall (fun f => contains pat f = false)
         [place_of_birth p; country_of_birth p;
          seasons_played_at_Brighton p;
          seasons_at_brighton_during_second_spell p;
          team_played_for_before p; position p] →
  d ∈ tier_1 p ++ tier_2 p ++ tier_3 p →
  d.2 ≠ {["birth"]} →
  contains pat d.1 = false.
Proof.
  intros Hpat Hleft Hf Hd Hb. rewrite Forall_forall in Hf.
  assert (Hnil : contains pat [] = false) by (by destruct Hpat as [-> | ->]).
  candidates Hd; subst d; cbn [fst snd] in *.
  - by rewrite era_entry_blank.
  - destruct Hpat as [-> | ->];
      by_template [Lit (lit "This player was born in "); Fld (place_of_birth p);
                   Lit (lit ", "); Fld (country_of_birth p); Lit (lit " and has ");
                   Fld (str_of_Z (number_of_spells p));
                   Lit (lit " spell(s) at Brighton.")] Hf.
  - destruct (truthy (seasons_played_at_Brighton p)); [|done].
    destruct Hpat as [-> | ->];
      by_template [Lit (lit "Seasons at Brighton: ");
                   Fld (seasons_played_at_Brighton p)] Hf.
  - destruct (truthy (seasons_at_brighton_during_second_spell p)); [|done].
    destruct Hpat as [-> | ->];
      by_template [Lit (lit "Seasons at Brighton during second spell: ");
                   Fld (seasons_at_brighton_during_second_spell p)] Hf.
  - destruct Hpat as [-> | ->];
      by_template [Lit (lit "This player made ");
                   Fld (str_of_Z (league_appearances p));
                   Lit (lit " league appearances for Brighton.")] Hf.
  - unfold goals_clue. destruct (league_goals p) as [goals|]; [|done].
    destruct Hpat as [-> | ->];
      by_template [Lit (lit "This player scored "); Fld (str_of_Z goals);
                   Lit (lit " league goals for Brighton.")] Hf.
  - destruct Hpat as [-> | ->];
      by_template [Lit (lit "This player joined Brighton from ");
                   Fld (team_played_for_before p)] Hf.
  - by rewrite Hleft.
  - destruct Hpat as [-> | ->];
      by_template [Lit (lit "This player is a "); Fld (position p);
                   Lit (lit ".")] Hf.
  - done.
Qed.

(** C7 does not hold as stated: a player whose left-for text holds
    "Retired" and whose joined-from text holds it too gets a clue that
    holds "Retired". *)
Lemma retired_text_from_another_field :
  (∃ left_for, team_played_for_after comeback_player = Some left_for
               ∧ contains (lit "Retired") left_for = true)
  ∧ ∃ clue,
      clue ∈ @build_clues counter_random new_year_2024
               {| label := 0; row := comeback_player |} (Some (SeedInt 42))
      ∧ contains (lit "Retired") clue = true.
Proof.
  split.
  - eexists. split; [reflexivity|]. by vm_compute.
  - exists (lit "This player joined Brighton from Retired (came back as cover)").
    split; [|by vm_compute]. apply (bool_decide_unpack _). by vm_compute.
Qed.

(** C7, amended. For a player whose left-for text holds "Retired", every
    seed and generator: no clue with the left-for tag is returned, and a
    returned clue holds "left Brighton to join" (or "Retired") only if one
    of the texts formatted into the other clues -- place and country of
    birth, the two seasons texts, the joined-from text, the position --
    holds it. *)
Theorem retired_left_for_clue_suppressed `{PyRandom} (today : date)
    (player : Series) (s : option seed) (left_for : str) :
  team_played_for_after (row player) = Some left_for →
  contains (lit "Retired") left_for = true →
  Forall (fun d => "left_for" ∉ d.2) (tagged_clues today player s)
  ∧ Forall (fun clue =>
      ∀ pat, pat = lit "left Brighton to join" ∨ pat = lit "Retired" →
        contains pat clue = true →
        Exists (fun f => contains pat f = true)
          [place_of_birth (row player); country_of_birth (row player);
           seasons_played_at_Brighton (row player);
           seasons_at_brighton_during_second_spell (row player);
           team_played_for_before (row player); position (row player)])
      (build_clues today player s).
Proof.
  intros Hleft Hret.
  assert (Hblank : left_for_clue (row player) = [])
    by (unfold left_for_clue; by rewrite Hleft, Hret).
  split; apply Forall_forall.
  - intros d (Hnb & Hd & _)%tagged_clues_elem.
    candidates Hd; subst d; cbn [fst snd] in *; try set_solver.
    by rewrite Hblank in Hnb.
  - intros clue (d & (Hnb & Hd & Hb)%tagged_clues_elem & <-)%build_clues_elem
      pat Hpat Hin.
    match goal with |- Exists ?P ?l => destruct (decide (Exists P l)) as [|Hno] end;
      [done|].
    apply not_Exists_Forall in Hno; [|intros f; apply _].
    assert (Hfree : contains pat d.1 = false).
    { eapply candidate_text_free; [done..| |done|done].
      eapply Forall_impl; [exact Hno|]. intros f Hf. simpl in Hf.
      by destruct (contains pat f). }
    congruence.
Qed.

Lemma retired_left_for_clue_suppressed_witness :
  contains (lit "Retired") (lit "Retired") = true
  ∧ Forall (fun d => "left_for" ∉ d.2)
      (@tagged_clues counter_random new_year_2024
         {| label := 62; row := bruno_saltor |} (Some (SeedInt 42)))
  ∧ Forall (fun clue => contains (lit "Retired") clue = false)
      (@build_clues counter_random new_year_2024
         {| label := 62; row := bruno_saltor |} (Some (SeedInt 42))).
Proof.
  destruct (@retired_left_for_clue_suppressed counter_random new_year_2024
    {| label := 62; row := bruno_saltor |} (Some (SeedInt 42))
    (lit "Retired") eq_refl eq_refl) as [Htag Htext].
  split; [reflexivity|]. split; [exact Htag|].
  eapply Forall_impl; [exact Htext|]. intros clue Hclue. simpl in Hclue.
  destruct (contains (lit "Retired") clue) eqn:Hin; [|done].
  specialize (Hclue (lit "Retired") (or_intror eq_refl) Hin).
  exfalso. revert Hclue. apply (bool_decide_unpack _). by vm_compute.
Defined.

(** ** Loading the history *)

Lemma load_items_ok its acc :
  (∀ s v, (KText s, v) ∉ its) → ∃ m, load_items its acc = Ok m.
Proof.
  revert acc. induction its as [|[[d|s] v] its IH]; intros acc Hits; simpl.
  - by eexists.
  - apply IH. intros s v' Hin. apply (Hits s v'). by right.
  - exfalso. apply (Hits s v). by left.
Qed.

Lemma load_items_raise its acc :
  (∃ s v, (KText s, v) ∈ its) → load_items its acc = Raise ValueError.
Proof.
  revert acc. induction its as [|[[d|s] v] its IH]; intros acc (s' & v' & Hin); simpl.
  - by apply elem_of_nil in Hin.
  - apply IH. apply elem_of_cons in Hin as [?|Hin]; [done|]. by exists s', v'.
  - done.
Qed.

(** C9. [load_recent_players] does not fail soft on every malformed
    file.  It gives the empty mapping when there is no file and when the
    file is not JSON, which are the two errors its [except] clause names;
    but the other errors raised inside its [try] reach the caller:
    [AttributeError] for JSON that is not an object, [ValueError] for an
    object with a member name that is no ISO date, and whatever opening,
    reading or parsing raises apart from the two errors named, such as
    [UnicodeDecodeError] for bytes that are no text. *)
Theorem load_recent_players_raises :
  load_recent_players NoFile = Ok []
  ∧ load_recent_players NotJson = Ok []
  ∧ load_recent_players (Json JOther) = Raise AttributeError
  ∧ (∀ members, (∃ s v, (KText s, v) ∈ members) →
       load_recent_players (Json (JObject members)) = Raise ValueError)
  ∧ (∀ e, e ≠ FileNotFoundError → e ≠ JSONDecodeError →
       load_recent_players (Unreadable e) = Raise e)
  ∧ load_recent_players (Json (JObject [(KText (lit "yesterday"), 7)]))
    = Raise ValueError
  ∧ load_recent_players (Unreadable UnicodeDecodeError) = Raise UnicodeDecodeError.
Proof.
  do 3 (split; [done|]). split; [|split; [|done]].
  - intros members Htext. unfold load_recent_players. simpl.
    change (mbind (fun its => load_items its []) (Ok members))
      with (load_items members []).
    by rewrite (load_items_raise members [] Htext).
  - intros e H1 H2. by destruct e.
Qed.

(** ** Dictionaries *)

Section dict.
Context {K V : Type} `{EqDecision K}.
Implicit Types (m : dict K V) (k : K) (v : V).

Lemma dict_get_None m k : dict_get m k = None ↔ k ∉ m.*1.
Proof.
  induction m as [|[k' v'] m IH]; simpl.
  - split; [intros _ Hin; by apply elem_of_nil in Hin|done].
  - destruct (decide (k' = k)) as [->|Hne].
    + split; [done|]. intros Hnot. exfalso. apply Hnot. by left.
    + rewrite IH. split.
      * intros Hnot [?|Hin]%elem_of_cons; [done|]. by apply Hnot.
      * intros Hnot Hin. apply Hnot. by right.
Qed.

Lemma dict_get_Some_elem m k v : dict_get m k = Some v → (k, v) ∈ m.
Proof.
  induction m as [|[k' v'] m IH]; simpl; [done|].
  destruct (decide (k' = k)) as [->|Hne].
  - intros [= ->]. by left.
  - intros Hm. right. by apply IH.
Qed.

Lemma dict_set_fresh m k v : k ∉ m.*1 → dict_set m k v = m ++ [(k, v)].
Proof.
  induction m as [|[k' v'] m IH]; simpl; [done|]. intros Hnot.
  destruct (decide (k' = k)) as [->|Hne].
  - exfalso. apply Hnot. by left.
  - rewrite IH; [done|]. intros Hin. apply Hnot. by right.
Qed.

Lemma dict_get_set m k v : dict_get (dict_set m k v) k = Some v.
Proof.
  induction m as [|[k' v'] m IH]; cbn [dict_get dict_set].
  - by case_decide.
  - destruct (decide (k' = k)) as [->|Hne]; cbn [dict_get]; by case_decide.
Qed.

Lemma dict_set_keys m k v :
  (dict_set m k v).*1 = if decide (k ∈ m.*1) then m.*1 else m.*1 ++ [k].
Proof.
  induction m as [|[k' v'] m IH].
  - destruct (decide (k ∈ ([] : dict K V).*1)) as [Hin|]; [|done].
    by apply elem_of_nil in Hin.
  - cbn [dict_set]. destruct (decide (k' = k)) as [->|Hne].
    + destruct (decide (k ∈ ((k, v') :: m).*1)) as [|Hnot]; [done|].
      exfalso. apply Hnot. by left.
    + rewrite fmap_cons, IH. cbn [fst].
      destruct (decide (k ∈ m.*1)) as [Hin|Hnot];
        destruct (decide (k ∈ ((k', v') :: m).*1)) as [Hin'|Hnot']; try done.
      * exfalso. apply Hnot'. by right.
      * apply elem_of_cons in Hin' as [?|?]; [by exfalso; apply Hne|done].
Qed.

Lemma dict_set_NoDup m k v : NoDup m.*1 → NoDup (dict_set m k v).*1.
Proof.
  intros Hm. rewrite dict_set_keys. destruct (decide (k ∈ m.*1)); [done|].
  apply NoDup_app. split; [done|]. split; [|apply NoDup_singleton].
  intros x Hx ->%list_elem_of_singleton. done.
Qed.

Lemma dict_filter_NoDup (P : K * V → Prop) `{∀ e, Decision (P e)} m :
  NoDup m.*1 → NoDup (filter P m).*1.
Proof.
  induction m as [|[k' v'] m IH]; [done|]. simpl.
  intros [Hnot Hm]%NoDup_cons. rewrite filter_cons.
  destruct (decide (P (k', v'))); [|by apply IH]. simpl.
  apply NoDup_cons. split; [|by apply IH].
  intros Hin. apply Hnot. apply list_elem_of_fmap in Hin as (e & -> & He).
  apply list_elem_of_filter in He as [_ He].
  apply list_elem_of_fmap. by exists e.
Qed.

(** Entering the items of a dictionary one by one gives it back. *)
Lemma dict_set_all acc m :
  NoDup (acc ++ m).*1 →
  foldl (fun a e => dict_set a e.1 e.2) acc m = acc ++ m.
Proof.
  revert acc. induction m as [|[k v] m IH]; intros acc Hnd; simpl.
  - by rewrite app_nil_r.
  - assert (Hk : k ∉ acc.*1).
    { rewrite fmap_app in Hnd. apply NoDup_app in Hnd as (_ & Hdis & _).
      intros Hin. apply (Hdis k Hin). by left. }
    rewrite (dict_set_fresh acc k v Hk), IH; rewrite <- app_assoc; done.
Qed.

End dict.

(** ** Saving and loading *)

Lemma load_items_saved (m acc : dict datetime Z) :
  load_items ((fun e => (KDate e.1, e.2)) <$> m) acc
  = Ok (foldl (fun a e => dict_set a e.1 e.2) acc m).
Proof.
  revert acc. induction m as [|[k v] m IH]; intros acc; simpl; [done|].
  apply IH.
Qed.

(** What [save_recent_players] writes, [load_recent_players] reads back. *)
Lemma load_save (m : dict datetime Z) :
  NoDup m.*1 → load_recent_players (save_recent_players m) = Ok m.
Proof.
  intros Hm. unfold load_recent_players, save_recent_players. simpl.
  change (mbind (fun its => load_items its []) (Ok ?l)) with (load_items l []).
  by rewrite load_items_saved, dict_set_all.
Qed.

Lemma load_items_NoDup its acc m :
  NoDup acc.*1 → load_items its acc = Ok m → NoDup m.*1.
Proof.
  revert acc. induction its as [|[[d|s] v] its IH]; intros acc Hacc; simpl.
  - by intros [= <-].
  - apply IH. by apply dict_set_NoDup.
  - done.
Qed.

Lemma load_recent_players_NoDup fs m :
  load_recent_players fs = Ok m → NoDup m.*1.
Proof.
  unfold load_recent_players.
  destruct fs as [| |e'|[members|]]; simpl;
    try (intros [= <-]; by apply NoDup_nil).
  { destruct e'; intros [= <-]; by apply NoDup_nil. }
  change (mbind (fun its => load_items its []) (Ok members))
      with (load_items members []).
  destruct (load_items members []) as [m'|e] eqn:E.
  - intros [= <-]. eapply load_items_NoDup; [|done]. by apply NoDup_nil.
  - destruct e; intros [= <-]; by apply NoDup_nil.
Qed.

(** ** The selector, branch by branch *)

Lemma choice_ok `{PyRandom} {A} (seq : list A) g :
  seq ≠ [] → ∃ a, choice seq g = Ok a ∧ a ∈ seq.
Proof.
  intros Hne. unfold choice. destruct seq as [|x seq]; [done|].
  pose proof (randbelow_lt (length (x :: seq)) g) as Hlt.
  destruct (lookup_lt_is_Some_2 (x :: seq) (randbelow (length (x :: seq)) g).1)
    as [a Ha]; [apply Hlt; simpl; lia|].
  rewrite Ha. exists a. split; [done|]. by eapply list_elem_of_lookup_2.
Qed.

Lemma iloc_ok (df : list Player) idx p :
  0 <= idx → df !! Z.to_nat idx = Some p →
  iloc df idx = Ok {| label := idx; row := p |}.
Proof.
  intros Hidx Hp. unfold iloc.
  pose proof (lookup_lt_Some _ _ _ Hp) as Hlt.
  rewrite (proj2 (Z.ltb_ge idx 0)) by done.
  rewrite (proj2 (Z.leb_le 0 idx)) by done.
  rewrite (proj2 (Z.ltb_lt idx _)) by lia. simpl. by rewrite Hp.
Qed.

Lemma iloc_in_range (df : list Player) idx :
  0 <= idx < Z.of_nat (length df) →
  ∃ p, df !! Z.to_nat idx = Some p ∧ iloc df idx = Ok {| label := idx; row := p |}.
Proof.
  intros Hidx. destruct (lookup_lt_is_Some_2 df (Z.to_nat idx)) as [p Hp]; [lia|].
  exists p. split; [done|]. apply iloc_ok; [lia|done].
Qed.

Lemma elem_of_all_indices (df : list Player) idx :
  idx ∈ all_indices df ↔
  0 <= idx < Z.of_nat (length df)
  ∧ ∃ p, df !! Z.to_nat idx = Some p ∧ 0 < league_appearances p.
Proof.
  unfold all_indices. rewrite list_elem_of_filter, elem_of_seqZ.
  unfold has_league_appearance. split.
  - intros [Happ Hidx]. assert (Hr : 0 <= idx < Z.of_nat (length df)) by lia.
    split; [done|]. destruct (iloc_in_range df idx Hr) as (p & Hp & Hi).
    rewrite Hi in Happ. simpl in Happ. exists p. split; [done|]. lia.
  - intros [Hr (p & Hp & Happ)]. split; [|lia].
    rewrite (iloc_ok df idx p) by (done || lia). simpl. lia.
Qed.

Lemma all_indices_NoDup (df : list Player) : NoDup (all_indices df).
Proof. apply NoDup_filter, NoDup_seqZ. Qed.

Lemma iloc_all_indices (df : list Player) idx :
  idx ∈ all_indices df →
  ∃ p, iloc df idx = Ok {| label := idx; row := p |}
       ∧ 0 < league_appearances p.
Proof.
  intros [Hr (p & Hp & Happ)]%elem_of_all_indices.
  exists p. split; [|done]. apply iloc_ok; [lia|done].
Qed.

Lemma dict_get_recent (h : dict datetime Z) today k :
  today - 30 <= dt_date k →
  dict_get (filter (fun e : datetime * Z => today - 30 <= dt_date e.1) h) k
  = dict_get h k.
Proof.
  intros Hk. induction h as [|[k' v'] h IH]; [done|].
  rewrite filter_cons. cbn [fst dict_get].
  destruct (decide (today - 30 <= dt_date k')) as [HP|HP]; cbn [dict_get].
  - by rewrite IH.
  - rewrite decide_False; [done|]. by intros ->.
Qed.

Lemma get_daily_player_cached `{PyRandom} app today fs h idx :
  override app = None →
  load_recent_players fs = Ok h →
  dict_get h (midnight today) = Some idx →
  get_daily_player app today fs = (iloc (players_df app) idx, fs).
Proof.
  intros Hov Hload Hget. unfold get_daily_player. rewrite Hov, Hload.
  cbv zeta. rewrite dict_get_recent by (simpl; lia).
  by rewrite Hget.
Qed.

Lemma get_daily_player_fresh `{PyRandom} app today fs h :
  override app = None →
  load_recent_players fs = Ok h →
  dict_get h (midnight today) = None →
  let recent := filter (fun e => today - 30 <= dt_date e.1) h in
  get_daily_player app today fs =
  match choice (draw_pool (players_df app) recent)
               (Random (SeedInt (year today * 1000 + tm_yday today))) with
  | Raise e => (Raise e, fs)
  | Ok selected_index =>
      (iloc (players_df app) selected_index,
       save_recent_players (dict_set recent (midnight today) selected_index))
  end.
Proof.
  intros Hov Hload Hget. unfold get_daily_player. rewrite Hov, Hload.
  cbv zeta. rewrite dict_get_recent by (simpl; lia).
  rewrite Hget. unfold draw_pool. simpl.
  by destruct (filter _ (all_indices (players_df app))).
Qed.

(** C4 does not hold as stated: with nobody eligible the selector
    raises the [IndexError] of [rng.choice] on an empty sequence, the very
    exception it raises when the history holds an index outside the
    catalogue; no error of its own marks the empty pool. *)
Lemma empty_pool_raises_IndexError :
  all_indices (players_df idle_app) = []
  ∧ @get_daily_player counter_random idle_app new_year_2024 NoFile
    = (Raise IndexError, NoFile)
  ∧ @get_daily_player counter_random small_app new_year_2024
      (Json (JObject [(KDate (midnight new_year_2024), 184)]))
    = (Raise IndexError,
       Json (JObject [(KDate (midnight new_year_2024), 184)])).
Proof. split; [|split]; by vm_compute. Qed.

(** C4, amended. When no player is eligible and the date has no entry in
    the history, the selector fails with [IndexError], raised by
    [rng.choice] on the empty pool, and leaves the history file as it
    was. *)
Theorem empty_pool_choice_fails `{PyRandom} (app : App) (today : date)
    (fs : file_state) (h : dict datetime Z) :
  override app = None →
  load_recent_players fs = Ok h →
  dict_get h (midnight today) = None →
  all_indices (players_df app) = [] →
  get_daily_player app today fs = (Raise IndexError, fs).
Proof.
  intros Hov Hload Hget Hpool.
  rewrite (get_daily_player_fresh app today fs h Hov Hload Hget).
  unfold draw_pool. rewrite Hpool. by rewrite filter_nil.
Qed.

Lemma empty_pool_choice_fails_witness :
  @get_daily_player counter_random idle_app new_year_2024 NotJson
  = (Raise IndexError, NotJson).
Proof.
  apply (@empty_pool_choice_fails counter_random idle_app new_year_2024
           NotJson []); reflexivity.
Defined.

(** C2. When the history holds an entry for the date, the selector returns
    the row at the index of that entry -- the row whose label is that
    index, when the index is a position of the catalogue -- and leaves the
    history file as it was; and in every state, a second call on the same
    date, on the file the first call left, returns what the first call
    returned and leaves that file as it is. *)
Theorem get_daily_player_idempotent `{PyRandom} (app : App) (today : date)
    (fs : file_state) (h : dict datetime Z) (idx : Z) :
  override app = None →
  load_recent_players fs = Ok h →
  dict_get h (midnight today) = Some idx →
  get_daily_player app today fs = (iloc (players_df app) idx, fs)
  ∧ (0 <= idx < Z.of_nat (length (players_df app)) →
     ∃ p, players_df app !! Z.to_nat idx = Some p
          ∧ get_daily_player app today fs = (Ok {| label := idx; row := p |}, fs))
  ∧ (∀ app' fs0,
       get_daily_player app' today (get_daily_player app' today fs0).2
       = ((get_daily_player app' today fs0).1,
          (get_daily_player app' today fs0).2)).
Proof.
  intros Hov Hload Hget.
  pose proof (get_daily_player_cached app today fs h idx Hov Hload Hget) as Hc.
  split; [done|]. split.
  - intros Hr. destruct (iloc_in_range _ _ Hr) as (p & Hp & Hi).
    exists p. split; [done|]. by rewrite Hc, Hi.
  - clear. intros app fs.
    destruct (override app) as [i|] eqn:Hov.
    { unfold get_daily_player. by rewrite Hov. }
    destruct (load_recent_players fs) as [h|e] eqn:Hload.
    2: { unfold get_daily_player. rewrite Hov, Hload. simpl.
         by rewrite Hload. }
    destruct (dict_get h (midnight today)) as [idx|] eqn:Hget.
    { rewrite (get_daily_player_cached app today fs h idx Hov Hload Hget).
      simpl. apply (get_daily_player_cached app today fs h idx Hov Hload Hget). }
    rewrite (get_daily_player_fresh app today fs h Hov Hload Hget). cbv zeta.
    set (recent := filter _ h).
    destruct (choice _ _) as [sel|e] eqn:Hch; simpl.
    2: { rewrite (get_daily_player_fresh app today fs h Hov Hload Hget).
         cbv zeta. fold recent. by rewrite Hch. }
    apply (get_daily_player_cached app today _
             (dict_set recent (midnight today) sel) sel Hov).
    + apply load_save, dict_set_NoDup, dict_filter_NoDup.
      by eapply load_recent_players_NoDup.
    + apply dict_get_set.
Qed.

Lemma get_daily_player_idempotent_witness :
  @get_daily_player counter_random small_app new_year_2024
    (Json (JObject [(KDate (midnight new_year_2024), 2)]))
  = (Ok {| label := 2; row := bruno_saltor |},
     Json (JObject [(KDate (midnight new_year_2024), 2)])).
Proof.
  destruct (@get_daily_player_idempotent counter_random small_app new_year_2024
    (Json (JObject [(KDate (midnight new_year_2024), 2)]))
    [(midnight new_year_2024, 2)] 2 eq_refl eq_refl eq_refl) as (H1 & _ & _).
  exact H1.
Defined.

(** C5. When the pool of eligible players is not empty and every eligible
    index is among the history values that the 30-day cutoff keeps, the
    selector does not fail: it draws with [rng.choice] from the whole
    eligible pool, returns the row drawn, and writes a history that holds
    every kept entry as it was, followed by the one new entry for the
    date. *)
Theorem pool_exhaustion_fallback `{PyRandom} (app : App) (today : date)
    (fs : file_state) (h : dict datetime Z) :
  override app = None →
  load_recent_players fs = Ok h →
  dict_get h (midnight today) = None →
  let recent := filter (fun e : datetime * Z => today - 30 <= dt_date e.1) h in
  all_indices (players_df app) ≠ [] →
  Forall (fun idx => idx ∈ recent.*2) (all_indices (players_df app)) →
  ∃ idx p,
    choice (all_indices (players_df app))
           (Random (SeedInt (year today * 1000 + tm_yday today))) = Ok idx
    ∧ idx ∈ all_indices (players_df app)
    ∧ players_df app !! Z.to_nat idx = Some p
    ∧ get_daily_player app today fs =
      (Ok {| label := idx; row := p |},
       Json (JObject ((fun e => (KDate e.1, e.2))
                        <$> (recent ++ [(midnight today, idx)])))).
Proof.
  intros Hov Hload Hget recent Hpool Hused.
  rewrite (get_daily_player_fresh app today fs h Hov Hload Hget). cbv zeta.
  fold recent.
  assert (Hdraw : draw_pool (players_df app) recent = all_indices (players_df app)).
  { unfold draw_pool. rewrite filter_none; [done|].
    eapply Forall_impl; [exact Hused|]. intros idx Hidx Hnot. apply Hnot.
    by apply elem_of_list_to_set. }
  rewrite Hdraw.
  destruct (choice_ok (all_indices (players_df app))
              (Random (SeedInt (year today * 1000 + tm_yday today))) Hpool)
    as (idx & Hch & Hidx).
  rewrite Hch. exists idx.
  pose proof Hidx as [Hr (p & Hp & _)]%elem_of_all_indices.
  exists p. split; [done|]. split; [done|]. split; [done|].
  rewrite (iloc_ok _ idx p) by (done || lia).
  unfold save_recent_players. rewrite dict_set_fresh; [done|].
  apply dict_get_None. subst recent. rewrite dict_get_recent by (simpl; lia). done.
Qed.

Lemma pool_exhaustion_fallback_witness :
  ∃ idx p,
    idx ∈ all_indices (players_df small_app)
    ∧ @get_daily_player counter_random small_app new_year_2024
        (Json (JObject [(KDate (midnight (new_year_2024 - 2)), 1);
                        (KDate (midnight (new_year_2024 - 1)), 2)]))
      = (Ok {| label := idx; row := p |},
         Json (JObject [(KDate (midnight (new_year_2024 - 2)), 1);
                        (KDate (midnight (new_year_2024 - 1)), 2);
                        (KDate (midnight new_year_2024), idx)])).
Proof.
  destruct (@pool_exhaustion_fallback counter_random small_app new_year_2024
    (Json (JObject [(KDate (midnight (new_year_2024 - 2)), 1);
                    (KDate (midnight (new_year_2024 - 1)), 2)]))
    [(midnight (new_year_2024 - 2), 1); (midnight (new_year_2024 - 1), 2)]
    eq_refl eq_refl eq_refl)
    as (idx & p & _ & Hidx & _ & Hrun).
  - by vm_compute.
  - vm_compute. repeat constructor.
  - exists idx, p. split; [exact Hidx|exact Hrun].
Defined.

(** ** The routes *)



(** *** Letters up to case and quote style *)












Lemma build_clues_nonempty `{PyRandom} today player s :
  ∃ clue, first_item (build_clues today player s) = Ok clue.
Proof.
  destruct (birth_spells_kept (row player)
              match s with Some s0 => s0 | None => default_seed today player end)
    as (d & _ & _ & Hd).
  rewrite build_clues_tagged. unfold tagged_clues.
  destruct (select_defs _) as [|d0 l]; [by apply elem_of_nil in Hd|].
  by eexists.
Qed.



(** C10. Whenever the selector returns a player, the daily-challenge
    route answers with a body whose [firstName] and [lastName] are the
    derived first and last name of that player, in full, whose two length
    fields are the lengths of these two strings, and whose [player_id] is
    the label of the row. *)
Theorem challenge_carries_answer `{PyRandom} (app : App) (today : date)
    (fs fs' : file_state) (player : Series) :
  get_daily_player app today fs = (Ok player, fs') →
  ∃ clue,
    first_item (build_clues today player None) = Ok clue
    ∧ get_challenge app today fs =
      (Json200 {| firstNameLength := length (first_name (row player));
                  lastNameLength := length (last_name (row player));
                  firstClue := clue;
                  player_id := label player;
                  firstName := first_name (row player);
                  lastName := last_name (row player) |}, fs').
Proof.
  intros Hsel. destruct (build_clues_nonempty today player None) as [clue Hclue].
  exists clue. split; [done|]. unfold get_challenge. rewrite Hsel. simpl.
  by rewrite Hclue.
Qed.

Lemma challenge_carries_answer_witness :
  ∃ clue,
    @get_challenge counter_random guess_app new_year_2024
      (Json (JObject [(KDate (midnight new_year_2024), 1)]))
    = (Json200 {| firstNameLength := 4; lastNameLength := 8;
                  firstClue := clue; player_id := 1;
                  firstName := lit "Mark"; lastName := lit "O'Mahony" |},
       Json (JObject [(KDate (midnight new_year_2024), 1)])).
Proof.
  destruct (@challenge_carries_answer counter_random guess_app new_year_2024
    (Json (JObject [(KDate (midnight new_year_2024), 1)]))
    (Json (JObject [(KDate (midnight new_year_2024), 1)]))
    {| label := 1; row := mark_omahony |} eq_refl) as (clue & _ & Hrun).
  exists clue. exact Hrun.
Defined.

(** ** Thirty days without a repeat *)

Lemma filter_all {A} (P : A → Prop) `{∀ x, Decision (P x)} (l : list A) :
  Forall P l → filter P l = l.
Proof.
  induction 1 as [|x l Hx Hl IH]; [done|]. by rewrite filter_cons_True, IH.
Qed.

(** More eligible players than history entries: one of them is unused. *)
Lemma unused_index_exists (df : list Player) (m : dict datetime Z) :
  (length m < length (all_indices df))%nat →
  filter (fun idx => idx ∉ (list_to_set m.*2 : gset Z)) (all_indices df) ≠ [].
Proof.
  intros Hlen Hnil.
  assert (Hsub : all_indices df ⊆+ m.*2).
  { apply NoDup_submseteq; [apply all_indices_NoDup|]. intros x Hx.
    destruct (decide (x ∈ m.*2)) as [|Hnot]; [done|]. exfalso.
    eapply (filter_nil_not_elem_of _ _ x Hnil); [|done].
    by rewrite elem_of_list_to_set. }
  apply submseteq_length in Hsub. rewrite length_fmap in Hsub. lia.
Qed.

(** A day that is not in the history, all of whose entries the cutoff
    keeps, with an eligible player to spare: the selector returns a player
    that no entry holds and appends the day to the history. *)
Lemma get_daily_player_new `{PyRandom} app today fs (m : dict datetime Z) :
  override app = None →
  load_recent_players fs = Ok m →
  Forall (fun e => today - 30 <= dt_date e.1 ∧ e.1 ≠ midnight today) m →
  (length m < length (all_indices (players_df app)))%nat →
  ∃ sel p,
    sel ∈ all_indices (players_df app) ∧ sel ∉ m.*2
    ∧ get_daily_player app today fs =
      (Ok {| label := sel; row := p |},
       save_recent_players (m ++ [(midnight today, sel)])).
Proof.
  intros Hov Hload Hm Hlen.
  assert (Hkey : midnight today ∉ m.*1).
  { intros (e & He1 & He)%list_elem_of_fmap. rewrite Forall_forall in Hm.
    destruct (Hm e He) as [_ Hne]. by apply Hne. }
  assert (Hget : dict_get m (midnight today) = None) by (by apply dict_get_None).
  rewrite (get_daily_player_fresh app today fs m Hov Hload Hget). cbv zeta.
  assert (Hrecent : filter (fun e : datetime * Z => today - 30 <= dt_date e.1) m = m).
  { apply filter_all. eapply Forall_impl; [exact Hm|]. by intros e [? _]. }
  rewrite Hrecent. unfold draw_pool.
  pose proof (unused_index_exists (players_df app) m Hlen) as Hne.
  destruct (filter _ (all_indices (players_df app))) as [|a l] eqn:Hpool; [done|].
  destruct (choice_ok (a :: l)
              (Random (SeedInt (year today * 1000 + tm_yday today))))
    as (sel & Hch & Hsel); [done|].
  rewrite Hch. rewrite <- Hpool in Hsel.
  apply list_elem_of_filter in Hsel as [Hnot Hsel].
  rewrite elem_of_list_to_set in Hnot.
  destruct (iloc_all_indices _ _ Hsel) as (p & Hp & _).
  exists sel, p. split; [done|]. split; [done|].
  by rewrite Hp, dict_set_fresh.
Qed.

Lemma play_days_fresh `{PyRandom} app start (n k : nat) fs (m : dict datetime Z) :
  override app = None →
  load_recent_players fs = Ok m →
  NoDup m.*1 → NoDup m.*2 →
  Forall (fun e => ∃ d, e.1 = midnight d ∧ start <= d < start + Z.of_nat k) m →
  length m = k →
  (k + n ≤ 30)%nat →
  (30 ≤ length (all_indices (players_df app)))%nat →
  ∃ players,
    (play_days app (seqZ (start + Z.of_nat k) (Z.of_nat n)) fs).1 = Ok <$> players
    ∧ length players = n
    ∧ NoDup (m.*2 ++ (label <$> players))
    ∧ Forall (fun p => label p ∈ all_indices (players_df app)) players.
Proof.
  intros Hov. revert k fs m.
  induction n as [|n IH]; intros k fs m Hload Hk1 Hk2 Hm Hlen Hkn Hpool.
  - exists []. simpl. rewrite app_nil_r. by repeat split.
  - rewrite seqZ_cons by lia. cbn [play_days].
    destruct (get_daily_player_new app (start + Z.of_nat k) fs m Hov Hload)
      as (sel & p & Hsel & Hnew & Hrun).
    { eapply Forall_impl; [exact Hm|]. intros e (d & He & Hd).
      rewrite He. split; [simpl; lia|]. intros [= Heq]. lia. }
    { lia. }
    rewrite Hrun.
    set (m' := m ++ [(midnight (start + Z.of_nat k), sel)]).
    assert (Hkeys : NoDup m'.*1).
    { subst m'. rewrite fmap_app. apply NoDup_app. split; [done|].
      split; [|apply NoDup_singleton].
      intros x (e & -> & He)%list_elem_of_fmap Hx%list_elem_of_singleton.
      rewrite Forall_forall in Hm. destruct (Hm e He) as (d & Hed & Hd).
      rewrite Hed in Hx. injection Hx as Heq. lia. }
    destruct (IH (S k) (save_recent_players m') m') as (players & Hplay & Hl & Hnd & Hall).
    + by apply load_save.
    + done.
    + subst m'. rewrite fmap_app. apply NoDup_app. split; [done|].
      split; [|apply NoDup_singleton].
      by intros x Hx ->%list_elem_of_singleton.
    + subst m'. apply Forall_app. split.
      * eapply Forall_impl; [exact Hm|]. intros e (d & He & Hd).
        exists d. split; [done|lia].
      * apply Forall_singleton. exists (start + Z.of_nat k). split; [done|lia].
    + subst m'. rewrite length_app. simpl. lia.
    + lia.
    + done.
    + replace (Z.succ (start + Z.of_nat k)) with (start + Z.of_nat (S k)) by lia.
      replace (Z.pred (Z.of_nat (S n))) with (Z.of_nat n) by lia.
      destruct (play_days app (seqZ (start + Z.of_nat (S k)) (Z.of_nat n))
                  (save_recent_players m')) as [rs fs2] eqn:Hrs.
      simpl in Hplay. subst rs.
      exists ({| label := sel; row := p |} :: players). simpl.
      split; [done|]. split; [by rewrite Hl|]. split.
      * subst m'. rewrite fmap_app, <- app_assoc in Hnd. exact Hnd.
      * by constructor.
Qed.

(** C3. From an empty history, the selector called on [n] consecutive days,
    [n] at most 30, with at least 30 eligible players, returns a player
    each day, and the [n] indices returned are pairwise distinct (and
    eligible). *)
Theorem no_repeat_window `{PyRandom} (app : App) (start : date) (n : nat)
    (fs : file_state) :
  override app = None →
  load_recent_players fs = Ok [] →
  (n ≤ 30)%nat →
  (30 ≤ length (all_indices (players_df app)))%nat →
  ∃ players,
    (play_days app (seqZ start (Z.of_nat n)) fs).1 = Ok <$> players
    ∧ length players = n
    ∧ NoDup (label <$> players)
    ∧ Forall (fun p => label p ∈ all_indices (players_df app)) players.
Proof.
  intros Hov Hload Hn Hpool.
  destruct (play_days_fresh app start n 0 fs [] Hov Hload) as (players & Hplay & Hl & Hnd & Hall);
    try done; try (by apply NoDup_nil); try lia.
  exists players. replace (start + Z.of_nat 0) with start in Hplay by lia.
  done.
Qed.

Lemma no_repeat_window_witness :
  ∃ players,
    (@play_days counter_random thirty_app (seqZ new_year_2024 (Z.of_nat 30)) NoFile).1
    = Ok <$> players
    ∧ length players = 30%nat
    ∧ NoDup (label <$> players).
Proof.
  destruct (@no_repeat_window counter_random thirty_app new_year_2024 30 NoFile)
    as (players & Hplay & Hl & Hnd & _).
  - reflexivity.
  - reflexivity.
  - lia.
  - vm_compute. lia.
  - exists players. exact (conj Hplay (conj Hl Hnd)).
Defined.

(** * Further properties of the code *)

(** ** The order and the number of the clues *)

Lemma tags_apart_perm l l' : l ≡ₚ l' → tags_apart l → tags_apart l'.
Proof.
  induction 1 as [|x l l' Hp IH|x y l|l l' l'' _ IH1 _ IH2]; simpl.
  - done.
  - intros [Hx Hl]. split; [by rewrite <- Hp|by apply IH].
  - intros [Hy [Hx Hl]]. inversion_clear Hy as [|? ? Hyx Hyl].
    split; [|done]. constructor; [by symmetry|done].
  - auto.
Qed.

Lemma tags_apart_app_l l1 l2 : tags_apart (l1 ++ l2) → tags_apart l1.
Proof.
  induction l1 as [|d l1 IH]; simpl; [done|]. intros [Hd Hl].
  apply Forall_app in Hd as [Hd _]. by auto.
Qed.

Lemma tags_apart_filter (P : clue_def → Prop) `{∀ d, Decision (P d)} l :
  tags_apart l → tags_apart (filter P l).
Proof.
  induction l as [|d l IH]; simpl; [done|]. intros [Hd Hl].
  rewrite filter_cons. destruct (decide (P d)); [|by auto]. simpl.
  split; [|by auto]. rewrite Forall_forall in Hd |- *.
  intros e [_ He]%list_elem_of_filter. by apply Hd.
Qed.

(** The tags of the first two tiers are all different. *)
Lemma tiers_apart p : tags_apart (tier_1 p ++ tier_2 p).
Proof.
  unfold tier_1, tier_2. cbn [app tags_apart].
  repeat match goal with
         | |- _ ∧ _ => split
         | |- Forall _ (_ :: _) => constructor
         | |- Forall _ [] => constructor
         | |- True => exact I
         | |- _ ## _ => cbn [snd]; apply (bool_decide_unpack _); by vm_compute
         end.
Qed.

(** Entries with tags all different, none of them used: all are kept. *)
Lemma add_def_all l U K :
  tags_apart l → Forall (fun d => d.2 ## U) l →
  foldl add_def (U, K) l = (U ∪ ⋃ l.*2, K ++ l).
Proof.
  revert U K. induction l as [|d l IH]; intros U K Hap Hdis; simpl.
  - f_equal; [set_solver|by rewrite app_nil_r].
  - destruct Hap as [Hd Hl]. inversion_clear Hdis as [|? ? HdU HlU].
    rewrite decide_True by set_solver. rewrite IH; [|done|].
    + f_equal; [set_solver|by rewrite <- app_assoc].
    + rewrite Forall_forall in Hd, HlU |- *. intros e He.
      specialize (Hd e He). specialize (HlU e He). set_solver.
Qed.

Lemma add_def_keep U K (d : clue_def) :
  d.2 ## U → add_def (U, K) d = (U ∪ d.2, K ++ [d]).
Proof. intros Hd. unfold add_def. rewrite decide_True; [done|set_solver]. Qed.

Lemma add_def_drop U K (d : clue_def) (x : string) :
  x ∈ d.2 → x ∈ U → add_def (U, K) d = (U, K).
Proof. intros Hd HU. unfold add_def. rewrite decide_False; [done|set_solver]. Qed.

Lemma nonblank_tier_3 p : nonblank (tier_3 p) = tier_3 p.
Proof.
  unfold nonblank, tier_3. rewrite !filter_cons, filter_nil.
  rewrite !decide_True; [done| |]; cbn [fst]; nonblank_lit.
Qed.

(** The selection over the three shuffled tiers: the first two in full,
    then the position clue. *)
Lemma select_defs_tiers p t1 t2 t3 :
  t1 ≡ₚ nonblank (tier_1 p) → t2 ≡ₚ nonblank (tier_2 p) →
  t3 ≡ₚ nonblank (tier_3 p) →
  select_defs (t1 ++ t2 ++ t3) =
  t1 ++ t2 ++ [(lit "This player is a " ++ position p ++ lit ".", {["position"]})].
Proof.
  intros H1 H2 H3. unfold select_defs.
  rewrite app_assoc, foldl_app.
  assert (H12 : t1 ++ t2 ≡ₚ nonblank (tier_1 p ++ tier_2 p)).
  { unfold nonblank in *. by rewrite filter_app, H1, H2. }
  rewrite add_def_all; cycle 1.
  { eapply tags_apart_perm; [symmetry; exact H12|].
    apply tags_apart_filter, tiers_apart. }
  { apply Forall_forall. intros d _. set_solver. }
  set (U := ∅ ∪ ⋃ (t1 ++ t2).*2).
  assert (Hbirth : "birth" ∈ U).
  { subst U. apply elem_of_union. right. apply elem_of_union_list.
    exists {["birth"; "spells"]}. split; [|set_solver].
    apply list_elem_of_fmap.
    exists (lit "This player was born in " ++ place_of_birth p ++ lit ", "
              ++ country_of_birth p ++ lit " and has "
              ++ str_of_Z (number_of_spells p) ++ lit " spell(s) at Brighton.",
            {["birth"; "spells"]}).
    split; [done|]. rewrite H12. apply elem_of_nonblank. split.
    - cbn [fst]. nonblank_lit.
    - unfold tier_1. apply elem_of_app. left. right. left. }
  assert (Hpos : "position" ∉ U).
  { subst U. intros [Hx|Hx]%elem_of_union; [set_solver|].
    apply elem_of_union_list in Hx as (X & HX & Hx).
    apply list_elem_of_fmap in HX as (d & -> & Hd).
    rewrite H12 in Hd. apply elem_of_nonblank in Hd as [_ Hd].
    apply elem_of_app in Hd as [Hd|Hd].
    - unfold tier_1 in Hd. repeat (apply elem_of_cons in Hd as [Hd|Hd]);
        try (by apply elem_of_nil in Hd); subst d; simpl in Hx; set_solver.
    - unfold tier_2 in Hd. repeat (apply elem_of_cons in Hd as [Hd|Hd]);
        try (by apply elem_of_nil in Hd); subst d; simpl in Hx; set_solver. }
  rewrite nonblank_tier_3 in H3. unfold tier_3 in H3. symmetry in H3.
  apply Permutation_length_2_inv in H3 as [-> | ->]; cbn [foldl].
  - rewrite add_def_keep by (cbn [snd]; set_solver).
    rewrite (add_def_drop _ _ _ "birth") by (cbn [snd]; set_solver).
    cbn [snd app]. by rewrite <- app_assoc.
  - rewrite (add_def_drop _ _ _ "birth") by (cbn [snd]; set_solver).
    rewrite add_def_keep by (cbn [snd]; set_solver).
    cbn [snd app]. by rewrite <- app_assoc.
Qed.

Lemma tagged_clues_exact `{PyRandom} today player s :
  let p := row player in
  let sd := match s with Some s0 => s0 | None => default_seed today player end in
  let r1 := shuffle (nonblank (tier_1 p)) (Random sd) in
  let r2 := shuffle (nonblank (tier_2 p)) r1.2 in
  tagged_clues today player s =
  r1.1 ++ r2.1 ++ [(lit "This player is a " ++ position p ++ lit ".", {["position"]})].
Proof.
  intros p sd r1 r2. unfold tagged_clues, clue_defs. fold sd. fold p.
  subst r2 r1.
  pose proof (shuffle_perm (nonblank (tier_1 p)) (Random sd)) as H1.
  destruct (shuffle (nonblank (tier_1 p)) (Random sd)) as [t1 g1].
  pose proof (shuffle_perm (nonblank (tier_2 p)) g1) as H2.
  cbn [fst snd] in *.
  destruct (shuffle (nonblank (tier_2 p)) g1) as [t2 g2].
  pose proof (shuffle_perm (nonblank (tier_3 p)) g2) as H3.
  destruct (shuffle (nonblank (tier_3 p)) g2) as [t3 g3].
  cbn [fst snd] in *. by apply select_defs_tiers.
Qed.

Lemma tagged_clues_perm `{PyRandom} today player s :
  tagged_clues today player s ≡ₚ
  nonblank (tier_1 (row player) ++ tier_2 (row player)
            ++ [(lit "This player is a " ++ position (row player) ++ lit ".",
                 {["position"]})]).
Proof.
  rewrite tagged_clues_exact. cbv zeta. unfold nonblank.
  rewrite !filter_app, !shuffle_perm. do 2 f_equiv.
  rewrite filter_cons, filter_nil. rewrite decide_True; [done|].
  cbn [fst]. nonblank_lit.
Qed.

(** X1. The clue list is made of the non-blank clues of the first tier in
    the order the first shuffle gives, then the non-blank clues of the
    second tier in the order the second shuffle gives, then the position
    clue, which is always last. *)
Theorem build_clues_tier_order `{PyRandom} (today : date) (player : Series)
    (s : option seed) :
  let p := row player in
  let sd := match s with Some s0 => s0 | None => default_seed today player end in
  let r1 := shuffle (nonblank (tier_1 p)) (Random sd) in
  let r2 := shuffle (nonblank (tier_2 p)) r1.2 in
  build_clues today player s =
    r1.1.*1 ++ r2.1.*1 ++ [lit "This player is a " ++ position p ++ lit "."]
  ∧ r1.1 ≡ₚ nonblank (tier_1 p)
  ∧ r2.1 ≡ₚ nonblank (tier_2 p).
Proof.
  intros p sd r1 r2. split; [|split; apply shuffle_perm].
  rewrite build_clues_tagged, tagged_clues_exact. cbv zeta.
  by rewrite !fmap_app.
Qed.

(** X2. The clues do not depend on the name or on the date of birth of the
    player: a row that differs from the player's only in these two columns
    gets the same clue list, for the same label, date and seed. *)
Theorem build_clues_hides_name_and_birth_date `{PyRandom} (today : date)
    (player : Series) (s : option seed) (other_name other_date : str) :
  build_clues today
    {| label := label player;
       row := {| name := other_name;
                 date_of_birth := other_date;
                 place_of_birth := place_of_birth (row player);
                 country_of_birth := country_of_birth (row player);
                 position := position (row player);
                 league_appearances := league_appearances (row player);
                 league_goals := league_goals (row player);
                 number_of_spells := number_of_spells (row player);
                 team_played_for_before := team_played_for_before (row player);
                 team_played_for_after := team_played_for_after (row player);
                 seasons_played_at_Brighton :=
                   seasons_played_at_Brighton (row player);
                 seasons_at_brighton_during_second_spell :=
                   seasons_at_brighton_during_second_spell (row player) |} |} s
  = build_clues today player s.
Proof.
  rewrite !build_clues_tagged, !tagged_clues_exact. cbv zeta.
  by destruct s.
Qed.

Lemma build_clues_length_bounds `{PyRandom} (today : date) (player : Series)
    (s : option seed) :
  (4 ≤ length (build_clues today player s) ≤ 8)%nat.
Proof.
  rewrite build_clues_tagged, length_fmap.
  rewrite (Permutation_length (tagged_clues_perm today player s)).
  unfold nonblank, tier_1, tier_2. cbn [app].
  rewrite !filter_cons, filter_nil. cbn [fst].
  rewrite era_entry_blank.
  rewrite (decide_False (P := truthy (strip []) = true)) by done.
  rewrite (decide_True (P := truthy (strip (lit "This player was born in " ++ _)) = true))
    by nonblank_lit.
  rewrite (decide_True (P := truthy (strip (lit "This player made " ++ _)) = true))
    by nonblank_lit.
  rewrite (decide_True (P := truthy (strip (lit "This player joined Brighton from " ++ _)) = true))
    by nonblank_lit.
  rewrite (decide_True (P := truthy (strip (lit "This player is a " ++ _)) = true))
    by nonblank_lit.
  repeat case_decide; simpl; lia.
Qed.

Lemma build_clues_nonblank `{PyRandom} (today : date) (player : Series)
    (s : option seed) (clue : str) :
  clue ∈ build_clues today player s → truthy (strip clue) = true.
Proof.
  intros (d & Hd & <-)%build_clues_elem.
  by apply tagged_clues_elem in Hd as [Hnb _].
Qed.

(** X3. There are at least four clues and at most eight, and none of them
    is blank. *)
Theorem build_clues_length `{PyRandom} (today : date) (player : Series)
    (s : option seed) :
  (4 ≤ length (build_clues today player s) ≤ 8)%nat
  ∧ Forall (fun clue => truthy (strip clue) = true) (build_clues today player s).
Proof.
  split; [apply build_clues_length_bounds|].
  apply Forall_forall. intros clue. apply build_clues_nonblank.
Qed.

(** X4. Two of the ten candidate clues are never returned, whatever the
    player and the seed: the era clue (it is asked for only when there is
    no seasons text, and then there is no era) and the clue with the full
    date of birth (the birth-and-spells clue of the first tier always comes
    before it and is always returned). *)
Theorem era_and_birth_date_never_returned `{PyRandom} (today : date)
    (player : Series) (s : option seed) :
  Forall (fun d => "era" ∉ d.2 ∧ d.2 ≠ {["birth"]})
         (tagged_clues today player s)
  ∧ Forall (fun clue =>
              startswith (lit "This player played for Brighton during") clue = false
              ∧ startswith (lit "This player was born on") clue = false)
           (build_clues today player s)
  ∧ lit "This player was born in " ++ place_of_birth (row player) ++ lit ", "
      ++ country_of_birth (row player) ++ lit " and has "
      ++ str_of_Z (number_of_spells (row player)) ++ lit " spell(s) at Brighton."
    ∈ build_clues today player s.
Proof.
  split; [|split].
  - apply Forall_forall. intros d Hd. split.
    + by apply (no_era_clue today player s d Hd).
    + by apply (tagged_clues_elem today player s d Hd).
  - apply Forall_forall. intros clue (d & Hd & <-)%build_clues_elem. split.
    + by apply (no_era_clue today player s d Hd).
    + apply tagged_clues_elem in Hd as (_ & Hd & Hb).
      candidates Hd; subst d; cbn [fst snd] in *;
        rewrite ?era_entry_blank; try done; try (by vm_compute).
      * by destruct (truthy _); vm_compute.
      * by destruct (truthy _); vm_compute.
      * unfold goals_clue. by destruct (league_goals _); vm_compute.
      * unfold left_for_clue. destruct (team_played_for_after _); [|done].
        destruct (contains _ _); [done|]. by destruct (bool_decide _); vm_compute.
  - apply build_clues_elem.
    destruct (birth_spells_kept (row player)
                match s with Some s0 => s0 | None => default_seed today player end)
      as (d & Hd & Htags & Hkept).
    exists d. split; [done|].
    unfold tier_1 in Hd. repeat (apply elem_of_cons in Hd as [Hd|Hd]);
      try (by apply elem_of_nil in Hd); subst d; cbn [fst snd] in *;
      try done; exfalso; revert Htags; apply (bool_decide_unpack _); by vm_compute.
Qed.

(** A tag that one candidate alone carries is on one returned clue when
    that candidate is not blank, and on none otherwise. *)
Lemma count_tag `{PyRandom} today player s (tag : string) l1 (d : clue_def) l2 :
  tier_1 (row player) ++ tier_2 (row player)
    ++ [(lit "This player is a " ++ position (row player) ++ lit ".",
         {["position"]})] = l1 ++ d :: l2 →
  Forall (fun e => tag ∉ e.2) l1 → Forall (fun e => tag ∉ e.2) l2 →
  tag ∈ d.2 →
  length (filter (fun e => tag ∈ e.2) (tagged_clues today player s)) =
  if decide (truthy (strip d.1) = true) then 1%nat else 0%nat.
Proof.
  intros Hsplit H1 H2 Hd.
  rewrite (Permutation_length
             (filter_Permutation _ _ _ (tagged_clues_perm today player s))).
  rewrite Hsplit. unfold nonblank. rewrite filter_app, filter_cons.
  rewrite !filter_app, length_app.
  rewrite (filter_none (fun e : clue_def => tag ∈ e.2) (filter _ l1)); cycle 1.
  { apply Forall_forall. intros e [_ He]%list_elem_of_filter.
    rewrite Forall_forall in H1. by apply H1. }
  destruct (decide (truthy (strip d.1) = true)) as [Hnb|Hnb].
  - rewrite filter_cons_True by done. cbn [length].
    rewrite (filter_none (fun e : clue_def => tag ∈ e.2) (filter _ l2)); [done|].
    apply Forall_forall. intros e [_ He]%list_elem_of_filter.
    rewrite Forall_forall in H2. by apply H2.
  - rewrite (filter_none (fun e : clue_def => tag ∈ e.2) (filter _ l2)); [done|].
    apply Forall_forall. intros e [_ He]%list_elem_of_filter.
    rewrite Forall_forall in H2. by apply H2.
Qed.

Ltac tag_absent :=
  repeat constructor; cbn [snd]; apply (bool_decide_unpack _); by vm_compute.

(** X5. Which of the optional clues are returned: the seasons clue exactly
    when the seasons text is not empty, the second-spell clue exactly when
    the second-spell text is not empty, the goals clue exactly when the
    goals value is present, and the left-for clue exactly when the left-for
    value is a string that does not hold "Retired". *)
Theorem optional_clues_returned `{PyRandom} (today : date) (player : Series)
    (s : option seed) :
  let kept := tagged_clues today player s in
  let p := row player in
  length (filter (fun d => "seasons" ∈ d.2) kept)
    = (if truthy (seasons_played_at_Brighton p) then 1 else 0)%nat
  ∧ length (filter (fun d => "seasons2" ∈ d.2) kept)
    = (if truthy (seasons_at_brighton_during_second_spell p) then 1 else 0)%nat
  ∧ length (filter (fun d => "goals" ∈ d.2) kept)
    = (match league_goals p with Some _ => 1 | None => 0 end)%nat
  ∧ length (filter (fun d => "left_for" ∈ d.2) kept)
    = (match team_played_for_after p with
       | Some v => if contains (lit "Retired") v then 0 else 1
       | None => 0
       end)%nat.
Proof.
  intros kept p. subst kept p.
  set (pos := (lit "This player is a " ++ position (row player) ++ lit ".",
               ({["position"]} : gset string))).
  repeat split.
  - erewrite (count_tag today player s "seasons"
                (take 2 (tier_1 (row player))) _ (drop 3 (tier_1 (row player)) ++ tier_2 (row player) ++ [pos]));
      [|reflexivity|tag_absent|tag_absent|cbn [snd]; set_solver].
    cbn [fst]. destruct (truthy (seasons_played_at_Brighton (row player))); cbv iota.
    + rewrite decide_True; [done|nonblank_lit].
    + by rewrite decide_False.
  - erewrite (count_tag today player s "seasons2"
                (take 3 (tier_1 (row player))) _ (tier_2 (row player) ++ [pos]));
      [|reflexivity|tag_absent|tag_absent|cbn [snd]; set_solver].
    cbn [fst]. destruct (truthy (seasons_at_brighton_during_second_spell (row player))); cbv iota.
    + rewrite decide_True; [done|nonblank_lit].
    + by rewrite decide_False.
  - erewrite (count_tag today player s "goals"
                (tier_1 (row player) ++ take 1 (tier_2 (row player))) _ (drop 2 (tier_2 (row player)) ++ [pos]));
      [|reflexivity|tag_absent|tag_absent|cbn [snd]; set_solver].
    cbn [fst]. unfold goals_clue. destruct (league_goals (row player)); cbv iota.
    + rewrite decide_True; [done|nonblank_lit].
    + by rewrite decide_False.
  - erewrite (count_tag today player s "left_for"
                (tier_1 (row player) ++ take 3 (tier_2 (row player))) _ [pos]);
      [|reflexivity|tag_absent|tag_absent|cbn [snd]; set_solver].
    cbn [fst]. unfold left_for_clue. destruct (team_played_for_after (row player)) as [v|].
    + destruct (contains (lit "Retired") v); [by rewrite decide_False|].
      destruct (bool_decide _); cbv iota.
      * rewrite decide_True; [done|by vm_compute].
      * rewrite decide_True; [done|nonblank_lit].
    + by rewrite decide_False.
Qed.

(** ** The routes together *)

Lemma iloc_label (df : list Player) i s :
  iloc df i = Ok s →
  iloc df (label s) = Ok s
  ∧ 0 <= label s < Z.of_nat (length df)
  ∧ df !! Z.to_nat (label s) = Some (row s).
Proof.
  unfold iloc. set (k := if i <? 0 then _ else i).
  destruct ((0 <=? k) && (k <? Z.of_nat (length df))) eqn:Hk; [|done].
  destruct (df !! Z.to_nat k) as [p|] eqn:Hp; [|done].
  intros [= <-]. simpl. apply andb_true_iff in Hk as [H0 Hn].
  apply Z.leb_le in H0. apply Z.ltb_lt in Hn.
  split; [|split; [lia|done]].
  rewrite (proj2 (Z.ltb_ge k 0)) by done.
  rewrite (proj2 (Z.leb_le 0 k)) by done.
  rewrite (proj2 (Z.ltb_lt k _)) by done. simpl. by rewrite Hp.
Qed.

Lemma choice_Ok_elem `{PyRandom} {A} (seq : list A) g a :
  choice seq g = Ok a → a ∈ seq.
Proof.
  unfold choice. destruct seq as [|x seq]; [done|].
  destruct (_ !! _) as [b|] eqn:Hb; [|done]. intros [= <-].
  by eapply list_elem_of_lookup_2.
Qed.

Lemma draw_pool_eligible df recent idx :
  idx ∈ draw_pool df recent → idx ∈ all_indices df.
Proof.
  unfold draw_pool.
  destruct (filter _ (all_indices df)) as [|a l] eqn:Hf; [done|].
  rewrite <- Hf. by intros [_ ?]%list_elem_of_filter.
Qed.

(** Every row the selector returns is a row of the catalogue, under its
    own label. *)
Lemma get_daily_player_row `{PyRandom} app today fs player fs' :
  get_daily_player app today fs = (Ok player, fs') →
  iloc (players_df app) (label player) = Ok player.
Proof.
  unfold get_daily_player.
  destruct (override app) as [i|].
  { intros [= Hi _]. by apply iloc_label in Hi as [? _]. }
  destruct (load_recent_players fs) as [h|e]; [|done]. cbv zeta.
  destruct (dict_get _ _) as [idx|].
  { intros [= Hi _]. by apply iloc_label in Hi as [? _]. }
  destruct (choice _ _) as [sel|e]; [|done].
  intros [= Hi _]. by apply iloc_label in Hi as [? _].
Qed.

Lemma get_challenge_body `{PyRandom} app today fs b fs' :
  get_challenge app today fs = (Json200 b, fs') →
  ∃ player,
    get_daily_player app today fs = (Ok player, fs')
    ∧ first_item (build_clues today player None) = Ok (firstClue b)
    ∧ player_id b = label player
    ∧ firstName b = first_name (row player)
    ∧ lastName b = last_name (row player).
Proof.
  unfold get_challenge.
  destruct (get_daily_player app today fs) as [[player|e] fs1]; [|done].
  simpl. destruct (first_item _) as [clue|e] eqn:Hclue; [|done]. simpl.
  intros [= <- <-]. by exists player.
Qed.

(** X6. What the daily challenge serves can be guessed back: the
    [player_id], [firstName] and [lastName] of its body, sent to the guess
    route, are judged correct, and the answer carries the full name. *)
Theorem challenge_names_are_correct_guess `{PyRandom} `{PyLower} (app : App)
    (today : date) (fs fs' : file_state) (b : Challenge) :
  get_challenge app today fs = (Json200 b, fs') →
  check_guess app (player_id b) (firstName b) (lastName b)
  = Json200 {| correct := true;
               fullName := Some (strip (firstName b ++ lit " " ++ lastName b)) |}.
Proof.
  intros (player & Hsel & _ & -> & -> & ->)%get_challenge_body.
  apply get_daily_player_row in Hsel. unfold check_guess. rewrite Hsel.
  by rewrite !bool_decide_eq_true_2.
Qed.

Lemma challenge_names_are_correct_guess_witness :
  @check_guess latin1_lower guess_app 1 (lit "Mark") (lit "O'Mahony")
  = Json200 {| correct := true; fullName := Some (lit "Mark O'Mahony") |}.
Proof.
  apply (@challenge_names_are_correct_guess counter_random latin1_lower guess_app
           new_year_2024 new_year_file new_year_file omahony_challenge).
  by vm_compute.
Defined.

(** X7. The clue route agrees with the daily challenge: asked on the same
    day for the [player_id] the challenge served, with clue index 0 or
    with no clue index, it returns the challenge's [firstClue]. *)
Theorem first_clue_is_clue_zero `{PyRandom} (app : App) (today : date)
    (fs fs' : file_state) (b : Challenge) :
  get_challenge app today fs = (Json200 b, fs') →
  get_clue app today (player_id b) None = Json200 (firstClue b)
  ∧ get_clue app today (player_id b) (Some 0) = Json200 (firstClue b).
Proof.
  intros (player & Hsel & Hclue & -> & _ & _)%get_challenge_body.
  apply get_daily_player_row in Hsel. unfold get_clue. rewrite Hsel. simpl.
  change (build_clues today player
            (Some (SeedStr (str_of_date today ++ str_of_Z (label player)))))
    with (build_clues today player (Some (default_seed today player))).
  assert (Hsame : build_clues today player (Some (default_seed today player))
                  = build_clues today player None) by done.
  rewrite Hsame.
  destruct (build_clues today player None) as [|c l]; [done|].
  simpl in Hclue. injection Hclue as ->. done.
Qed.

Lemma first_clue_is_clue_zero_witness :
  @get_clue counter_random guess_app new_year_2024 1 None
  = Json200 (lit "This player was born in Carrigaline, Ireland and has 1 spell(s) at Brighton.").
Proof.
  apply (@first_clue_is_clue_zero counter_random guess_app
           new_year_2024 new_year_file new_year_file omahony_challenge).
  by vm_compute.
Defined.

(** ** Names *)

Lemma split_at_space_join s :
  32%N ∈ s → (split_at_space s).1 ++ 32%N :: (split_at_space s).2 = s.
Proof.
  induction s as [|c s IH]; [by intros ?%elem_of_nil|]. simpl.
  destruct (N.eqb_spec c 32) as [->|Hc]; [done|].
  intros [?|Hin]%elem_of_cons; [done|].
  destruct (split_at_space s) as [a b]. simpl in *. by rewrite IH.
Qed.

Lemma split_at_space_first s : 32%N ∉ (split_at_space s).1.
Proof.
  induction s as [|c s IH]; simpl; [by intros ?%elem_of_nil|].
  destruct (N.eqb_spec c 32) as [->|Hc]; [by intros ?%elem_of_nil|].
  destruct (split_at_space s) as [a b]. simpl in *.
  intros [?|?]%elem_of_cons; [done|by apply IH].
Qed.

(** X8. [split_name] cuts the cleaned name (white space, then double
    quotes, removed from both ends) at its first space: the first name
    holds no space; when the cleaned name holds a space, first name, a
    space and last name make up the cleaned name again; when it holds
    none, the first name is the cleaned name and the last name is empty. *)
Theorem split_name_at_first_space (full : str) :
  let cleaned := strip_chars [QUOTATION_MARK] (strip full) in
  32%N ∉ (split_name full).1
  ∧ (32%N ∈ cleaned →
     (split_name full).1 ++ lit " " ++ (split_name full).2 = cleaned)
  ∧ (32%N ∉ cleaned →
     (split_name full).1 = cleaned ∧ (split_name full).2 = []).
Proof.
  intros cleaned. unfold split_name. fold cleaned.
  destruct (bool_decide_reflect (32%N ∈ cleaned)) as [Hin|Hnot].
  - split; [apply split_at_space_first|]. split; [|done].
    intros _. by apply split_at_space_join.
  - split; [done|]. split; [done|]. done.
Qed.

Lemma lstrip_with_app f a b :
  lstrip_with f (a ++ b) =
  match lstrip_with f a with [] => lstrip_with f b | c :: l => (c :: l) ++ b end.
Proof.
  induction a as [|x a IH]; simpl; [done|]. by destruct (f x).
Qed.

(** White space at the end does not survive [strip]. *)
Lemma strip_with_snoc f s c : f c = true → strip_with f (s ++ [c]) = strip_with f s.
Proof.
  intros Hc. unfold strip_with. rewrite lstrip_with_app.
  destruct (lstrip_with f s) as [|x l] eqn:Hs.
  - simpl. by rewrite Hc.
  - rewrite reverse_app. simpl. by rewrite Hc.
Qed.

Lemma full_name_text (p : Player) :
  strip (first_name p ++ lit " " ++ last_name p)
  = strip (strip_chars [QUOTATION_MARK] (strip (name p))).
Proof.
  unfold first_name, last_name, split_name.
  set (cleaned := strip_chars [QUOTATION_MARK] (strip (name p))).
  destruct (bool_decide_reflect (32%N ∈ cleaned)) as [Hin|Hnot].
  - f_equal. by apply split_at_space_join.
  - cbn [fst snd]. rewrite app_nil_r. by apply strip_with_snoc.
Qed.

(** X9. The full name in the answer to a correct guess is the stored name
    with white space and double quotes removed from both ends (and white
    space once more): a one-word name comes back without the space that
    the route puts after the first name. *)
Theorem full_name_is_cleaned_name `{PyLower} (app : App) (pid : Z)
    (player : Series) (guess_first guess_last : str) (r : GuessResult) :
  iloc (players_df app) pid = Ok player →
  check_guess app pid guess_first guess_last = Json200 r →
  correct r = true →
  fullName r
  = Some (strip (strip_chars [QUOTATION_MARK] (strip (name (row player))))).
Proof.
  intros Hrow. unfold check_guess. rewrite Hrow, full_name_text.
  intros [= <-]. cbn [correct fullName]. by intros ->.
Qed.

Lemma full_name_is_cleaned_name_witness :
  @check_guess latin1_lower guess_app 1 (lit "mark") (lit "o'mahony")
  = Json200 {| correct := true; fullName := Some (lit "Mark O'Mahony") |}
  ∧ Some (lit "Mark O'Mahony")
    = Some (strip (strip_chars [QUOTATION_MARK] (strip (name mark_omahony)))).
Proof.
  split; [reflexivity|].
  exact (@full_name_is_cleaned_name latin1_lower guess_app 1
           {| label := 1; row := mark_omahony |}
           (lit "mark") (lit "o'mahony")
           {| correct := true; fullName := Some (lit "Mark O'Mahony") |}
           eq_refl eq_refl eq_refl).
Defined.

Lemma getitem_in_range {A} (l : list A) i :
  - Z.of_nat (length l) <= i < Z.of_nat (length l) →
  ∃ a, getitem l i = Ok a ∧ a ∈ l.
Proof.
  intros Hi. unfold getitem. set (k := if i <? 0 then _ else i).
  assert (Hk : 0 <= k < Z.of_nat (length l)).
  { subst k. destruct (Z.ltb_spec i 0); lia. }
  rewrite (proj2 (Z.leb_le 0 k)), (proj2 (Z.ltb_lt k _)) by lia. simpl.
  destruct (lookup_lt_is_Some_2 l (Z.to_nat k)) as [a Ha]; [lia|].
  rewrite Ha. exists a. split; [done|]. by eapply list_elem_of_lookup_2.
Qed.

Lemma getitem_out_of_range {A} (l : list A) i :
  i < - Z.of_nat (length l) ∨ Z.of_nat (length l) <= i →
  getitem l i = Raise IndexError.
Proof.
  intros Hi. unfold getitem. set (k := if i <? 0 then _ else i).
  assert (Hk : k < 0 ∨ Z.of_nat (length l) <= k).
  { subst k. destruct (Z.ltb_spec i 0); lia. }
  destruct Hk as [Hk|Hk].
  - by rewrite (proj2 (Z.leb_gt 0 k)).
  - rewrite (proj2 (Z.ltb_ge k _)) by done. by rewrite andb_false_r.
Qed.

(** X10. For a player of the catalogue, the clue route always has a clue
    at the indices -4 to 3, a clue that is not blank, and never has one at
    index 8 or more, or below -8: it answers 500 with [IndexError]
    there. *)
Theorem get_clue_index_bounds `{PyRandom} (app : App) (today : date) (pid : Z)
    (player : Series) (i : Z) :
  iloc (players_df app) pid = Ok player →
  (-4 <= i < 4 →
   ∃ clue, get_clue app today pid (Some i) = Json200 clue
           ∧ truthy (strip clue) = true)
  ∧ (i < -8 ∨ 8 <= i → get_clue app today pid (Some i) = Error500 IndexError).
Proof.
  intros Hrow. unfold get_clue. rewrite Hrow. simpl.
  set (clues := build_clues today player _).
  pose proof (build_clues_length_bounds today player
                (Some (SeedStr (str_of_date today ++ str_of_Z pid)))) as Hlen.
  fold clues in Hlen. split.
  - intros Hi. destruct (getitem_in_range clues i) as (clue & Hclue & Hin); [lia|].
    rewrite Hclue. exists clue. split; [done|].
    by apply build_clues_nonblank in Hin.
  - intros Hi. rewrite getitem_out_of_range; [done|lia].
Qed.

Lemma get_clue_index_bounds_witness :
  (∃ clue, @get_clue counter_random guess_app new_year_2024 1 (Some 3)
           = Json200 clue ∧ truthy (strip clue) = true)
  ∧ @get_clue counter_random guess_app new_year_2024 1 (Some 8)
    = Error500 IndexError.
Proof.
  split.
  - apply (@get_clue_index_bounds counter_random guess_app new_year_2024 1
             {| label := 1; row := mark_omahony |} 3 eq_refl). lia.
  - apply (@get_clue_index_bounds counter_random guess_app new_year_2024 1
             {| label := 1; row := mark_omahony |} 8 eq_refl). lia.
Defined.

(** ** The history file over time *)

(** X11. Saving a history and loading it again gives the history back,
    items in the same order. *)
Theorem save_then_load (m : dict datetime Z) :
  NoDup m.*1 → load_recent_players (save_recent_players m) = Ok m.
Proof. apply load_save. Qed.

Lemma save_then_load_witness :
  load_recent_players
    (save_recent_players [(midnight new_year_2024, 42); (midnight (new_year_2024 + 1), 7)])
  = Ok [(midnight new_year_2024, 42); (midnight (new_year_2024 + 1), 7)].
Proof.
  apply save_then_load. apply (bool_decide_unpack _). by vm_compute.
Defined.

Lemma elem_of_dict_set {K V} `{EqDecision K} (m : dict K V) k v e :
  e ∈ dict_set m k v → e ∈ m ∨ e = (k, v).
Proof.
  induction m as [|[k' v'] m IH]; cbn [dict_set].
  - intros ->%list_elem_of_singleton. by right.
  - destruct (decide (k' = k)) as [->|Hne].
    + intros [->|He]%elem_of_cons; [by right|]. left. by right.
    + intros [->|He]%elem_of_cons; [left; by left|].
      destruct (IH He) as [?|?]; [left; by right|by right].
Qed.


(** X13. A player the selector newly draws is eligible -- the row has at
    least one league appearance -- and, when some eligible index is not
    among the history values that the cutoff keeps, the index drawn is not
    among them either. *)
Theorem new_draw_is_eligible_and_unused `{PyRandom} (app : App) (today : date)
    (fs fs' : file_state) (h : dict datetime Z) (player : Series) :
  override app = None →
  load_recent_players fs = Ok h →
  dict_get h (midnight today) = None →
  get_daily_player app today fs = (Ok player, fs') →
  let recent := filter (fun e : datetime * Z => today - 30 <= dt_date e.1) h in
  label player ∈ all_indices (players_df app)
  ∧ 0 < league_appearances (row player)
  ∧ (Exists (fun idx => idx ∉ recent.*2) (all_indices (players_df app)) →
     label player ∉ recent.*2).
Proof.
  intros Hov Hload Hget Hrun recent.
  rewrite (get_daily_player_fresh app today fs h Hov Hload Hget) in Hrun.
  cbv zeta in Hrun. fold recent in Hrun.
  destruct (choice _ _) as [sel|e] eqn:Hch; [|done].
  injection Hrun as Hrow _.
  apply choice_Ok_elem in Hch. pose proof (draw_pool_eligible _ _ _ Hch) as Hel.
  destruct (iloc_all_indices _ _ Hel) as (p & Hp & Happ).
  rewrite Hp in Hrow. injection Hrow as <-. simpl.
  split; [done|]. split; [done|].
  intros (idx & Hidx & Hnot)%Exists_exists.
  unfold draw_pool in Hch.
  destruct (filter _ (all_indices (players_df app))) as [|a l] eqn:Hf.
  - exfalso. eapply (filter_nil_not_elem_of _ _ idx Hf); [|done].
    by rewrite elem_of_list_to_set.
  - rewrite <- Hf in Hch. apply list_elem_of_filter in Hch as [Hsel _].
    by rewrite elem_of_list_to_set in Hsel.
Qed.

Lemma new_draw_is_eligible_and_unused_witness :
  2 ∈ all_indices (players_df small_app)
  ∧ 0 < league_appearances bruno_saltor
  ∧ (Exists (fun idx => idx ∉ [1]) (all_indices (players_df small_app)) →
     2 ∉ [1]).
Proof.
  exact (@new_draw_is_eligible_and_unused counter_random small_app new_year_2024
    (Json (JObject [(KDate (midnight (new_year_2024 - 1)), 1)]))
    (Json (JObject [(KDate (midnight (new_year_2024 - 1)), 1);
                    (KDate (midnight new_year_2024), 2)]))
    [(midnight (new_year_2024 - 1), 1)]
    {| label := 2; row := bruno_saltor |}
    eq_refl eq_refl eq_refl eq_refl).
Defined.

(** X14. A history file that does not load stops the game until it is
    replaced: the selector raises what loading raised and leaves the file
    as it is, so the daily challenge answers 500 on that day and on every
    later day. *)
Theorem unreadable_history_blocks_selection `{PyRandom} (app : App)
    (fs : file_state) (e : exn) (days : list date) :
  override app = None →
  load_recent_players fs = Raise e →
  play_days app days fs = (replicate (length days) (Raise e), fs)
  ∧ Forall (fun today => get_challenge app today fs = (Error500 e, fs)) days.
Proof.
  intros Hov Hload.
  assert (Hone : ∀ today, get_daily_player app today fs = (Raise e, fs)).
  { intros today. unfold get_daily_player. by rewrite Hov, Hload. }
  split.
  - induction days as [|d days IH]; [done|]. cbn [play_days].
    by rewrite Hone, IH.
  - apply Forall_forall. intros today _. unfold get_challenge.
    by rewrite Hone.
Qed.

Lemma unreadable_history_blocks_selection_witness :
  @play_days counter_random small_app
    [new_year_2024; new_year_2024 + 1; new_year_2024 + 40] (Json JOther)
  = ([Raise AttributeError; Raise AttributeError; Raise AttributeError],
     Json JOther).
Proof.
  exact (proj1 (@unreadable_history_blocks_selection counter_random small_app
    (Json JOther) AttributeError
    [new_year_2024; new_year_2024 + 1; new_year_2024 + 40] eq_refl eq_refl)).
Defined.

(** ** The debug routes *)

(** X15. In debug mode, once [set_player] has accepted an index, the
    selector returns the row at that index, under that index as label, and
    does not read or write the history file -- whatever the date and
    whatever the file holds. *)
Theorem set_player_then_daily_player `{PyRandom} (app : App) (idx : Z) :
  debug app = true →
  0 <= idx < Z.of_nat (length (players_df app)) →
  ∃ p,
    players_df app !! Z.to_nat idx = Some p
    ∧ (set_player app (Some idx)).1 = Reply200 true
    ∧ ∀ today fs,
        get_daily_player (set_player app (Some idx)).2 today fs
        = (Ok {| label := idx; row := p |}, fs).
Proof.
  intros Hdebug Hidx. destruct (iloc_in_range _ _ Hidx) as (p & Hp & Hrow).
  exists p. split; [done|]. unfold set_player. rewrite Hdebug. simpl.
  rewrite (proj2 (Z.leb_le 0 idx)), (proj2 (Z.ltb_lt idx _)) by lia. simpl.
  split; [done|]. intros today fs. unfold get_daily_player, override. simpl.
  by rewrite Hrow.
Qed.

Lemma set_player_then_daily_player_witness :
  @get_daily_player counter_random (set_player debug_app (Some 1)).2
    new_year_2024 (Json JOther)
  = (Ok {| label := 1; row := lewis_dunk |}, Json JOther).
Proof.
  destruct (@set_player_then_daily_player counter_random debug_app 1 eq_refl)
    as (p & Hp & _ & Hrun); [simpl; lia|].
  injection Hp as <-. exact (Hrun new_year_2024 (Json JOther)).
Defined.

(** X16. [set_player] never stores an index outside the catalogue and
    never changes the catalogue or the mode: from an application without
    override, after any sequence of requests, the override is a position
    of the catalogue, so that the selector, when it follows the override,
    returns a row and never raises. *)
Theorem set_player_keeps_override_in_range `{PyRandom} (app : App)
    (requests : list (option Z)) :
  current_player_index app = None →
  let app' := foldl (fun a r => (set_player a r).2) app requests in
  debug app' = debug app
  ∧ players_df app' = players_df app
  ∧ override_in_range app'
  ∧ ∀ i, override app' = Some i →
      ∃ p, ∀ today fs,
        get_daily_player app' today fs = (Ok {| label := i; row := p |}, fs).
Proof.
  intros Hnone app'.
  assert (Hinv : debug app' = debug app ∧ players_df app' = players_df app
                 ∧ override_in_range app').
  { subst app'.
    assert (Hstart : override_in_range app)
      by (unfold override_in_range; by rewrite Hnone).
    clear Hnone. revert app Hstart.
    induction requests as [|r requests IH]; intros app Hstart; [done|].
    cbn [foldl].
    destruct (IH (set_player app r).2) as (Hd & Hdf & Hr).
    - unfold set_player. destruct (debug app); [|done]. simpl.
      destruct ((0 <=? default 0 r) && _) eqn:Hok; [|done].
      unfold override_in_range. simpl.
      apply andb_true_iff in Hok as [H0 Hn].
      apply Z.leb_le in H0. apply Z.ltb_lt in Hn. lia.
    - rewrite Hd, Hdf. split; [|split; [|done]].
      + unfold set_player. destruct (debug app) eqn:E; [|done]. simpl.
        by destruct (_ && _).
      + unfold set_player. destruct (debug app) eqn:E; [|done]. simpl.
        by destruct (_ && _). }
  destruct Hinv as (Hd & Hdf & Hr). repeat split; try done.
  intros i Hi. unfold override in Hi.
  destruct (debug app') eqn:Hdebug; [|done].
  unfold override_in_range in Hr. rewrite Hi in Hr.
  destruct (iloc_in_range _ _ Hr) as (p & _ & Hrow).
  exists p. intros today fs. unfold get_daily_player, override.
  by rewrite Hdebug, Hi, Hrow.
Qed.

Lemma set_player_keeps_override_in_range_witness :
  override_in_range
    (foldl (fun a r => (set_player a r).2) debug_app
       [Some 2; Some 7; None; Some (-1)])
  ∧ current_player_index
      (foldl (fun a r => (set_player a r).2) debug_app
         [Some 2; Some 7; None; Some (-1)]) = Some 0.
Proof.
  split; [|reflexivity].
  exact (proj1 (proj2 (proj2
    (@set_player_keeps_override_in_range counter_random debug_app
       [Some 2; Some 7; None; Some (-1)] eq_refl)))).
Defined.

(** X17. In production the listing of recent players is refused with
    status 403 unless an admin key is configured, is not empty, and the
    request carries that very key; in debug mode it is never refused. *)
Theorem recent_players_listing_guard (app : App) (ADMIN_KEY provided_key : option str)
    (today : date) (fs : file_state) :
  (debug app = false →
   (debug_recent_players app ADMIN_KEY provided_key today fs
    = Reply403 (lit "Not allowed in production")
    ↔ ¬ ∃ k, k ≠ [] ∧ ADMIN_KEY = Some k ∧ provided_key = Some k))
  ∧ (debug app = true →
     ∀ msg, debug_recent_players app ADMIN_KEY provided_key today fs
            ≠ Reply403 msg).
Proof.
  unfold debug_recent_players. split.
  - intros ->. simpl. unfold key_refused.
    destruct ADMIN_KEY as [[|c k]|]; simpl.
    + split; [|done]. intros _ (k & Hk & [= <-] & _). done.
    + destruct (bool_decide_reflect (provided_key = Some (c :: k))) as [->|Hne]; simpl.
      * split.
        -- by destruct (_ ≫= _).
        -- intros Hnot. exfalso. apply Hnot. by exists (c :: k).
      * split; [|done]. intros _ (k' & _ & [= <-] & ->). done.
    + split; [|done]. intros _ (k & _ & [=] & _).
  - intros ->. simpl. intros msg. by destruct (_ ≫= _).
Qed.

(** X18. When the listing is served, it shows, in the order of the file,
    exactly the history entries that the selector counts as recently used
    on that day -- those dated today - 30 or later -- each with the name of
    the catalogue row at its index; [recent_count] is their number and
    [total_players] the size of the catalogue. *)
Theorem recent_players_listing_content (app : App) (ADMIN_KEY provided_key : option str)
    (today : date) (fs : file_state) (b : RecentListing) :
  debug_recent_players app ADMIN_KEY provided_key today fs = Reply200 b →
  ∃ h,
    load_recent_players fs = Ok h
    ∧ entry_player_id <$> listed_players b
      = (filter (fun e : datetime * Z => today - 30 <= dt_date e.1) h).*2
    ∧ Forall (fun en => ∃ s, iloc (players_df app) (entry_player_id en) = Ok s
                             ∧ entry_player_name en = name (row s))
             (listed_players b)
    ∧ recent_count b = length (listed_players b)
    ∧ total_players b = length (players_df app).
Proof.
  unfold debug_recent_players. destruct (_ && _); [done|].
  destruct (load_recent_players fs) as [h|e]; [|done]. simpl.
  destruct (recent_data (players_df app) today h) as [data|e] eqn:Hdata; [|done].
  simpl. intros [= <-]. exists h. simpl. split; [done|].
  split; [|split; [|done]].
  - revert data Hdata. induction h as [|[d pid] h IH]; intros data; simpl.
    + by intros [= <-].
    + rewrite filter_cons. simpl.
      destruct (decide (today - 30 <= dt_date d)); [|by apply IH].
      destruct (iloc (players_df app) pid) as [s|]; [|done]. simpl.
      destruct (recent_data (players_df app) today h) as [tl|]; [|done]. simpl.
      intros [= <-]. simpl. f_equal. by apply IH.
  - revert data Hdata. induction h as [|[d pid] h IH]; intros data; simpl.
    + by intros [= <-].
    + destruct (decide (today - 30 <= dt_date d)); [|by apply IH].
      destruct (iloc (players_df app) pid) as [s|] eqn:Hs; [|done]. simpl.
      destruct (recent_data (players_df app) today h) as [tl|]; [|done]. simpl.
      intros [= <-]. constructor; [by exists s|by apply IH].
Qed.

Lemma recent_players_listing_content_witness :
  ∃ h,
    load_recent_players
      (Json (JObject [(KDate (midnight (new_year_2024 - 40)), 1);
                      (KDate (midnight (new_year_2024 - 1)), 2)])) = Ok h
    ∧ [2] = (filter (fun e : datetime * Z => new_year_2024 - 30 <= dt_date e.1) h).*2.
Proof.
  destruct (recent_players_listing_content debug_app None None new_year_2024
    (Json (JObject [(KDate (midnight (new_year_2024 - 40)), 1);
                    (KDate (midnight (new_year_2024 - 1)), 2)]))
    {| listed_players :=
         [{| entry_date := lit "2023-12-31"; entry_player_id := 2;
             entry_player_name := lit "Bruno Saltor" |}];
       total_players := 3; recent_count := 1 |})
    as (h & Hload & Hids & _); [by vm_compute|].
  exists h. exact (conj Hload Hids).
Defined.

(** X19. In debug mode a reset removes the history, whatever it held, and
    the next call of the selector draws as on a first day: with
    [rng.choice] from all the eligible players, seeded by the date alone,
    and it writes a history with the one entry of the day. *)
Theorem reset_then_draw `{PyRandom} (app : App) (today : date) (fs : file_state) :
  debug app = true →
  current_player_index app = None →
  all_indices (players_df app) ≠ [] →
  ∃ msg sel p,
    debug_reset_recent app fs = (Reply200 msg, NoFile)
    ∧ choice (all_indices (players_df app))
             (Random (SeedInt (year today * 1000 + tm_yday today))) = Ok sel
    ∧ get_daily_player app today (debug_reset_recent app fs).2
      = (Ok {| label := sel; row := p |},
         save_recent_players [(midnight today, sel)]).
Proof.
  intros Hdebug Hnone Hpool.
  assert (Hov : override app = None) by (unfold override; by rewrite Hdebug).
  destruct (choice_ok (all_indices (players_df app))
              (Random (SeedInt (year today * 1000 + tm_yday today))) Hpool)
    as (sel & Hch & Hsel).
  destruct (iloc_all_indices _ _ Hsel) as (p & Hp & _).
  assert (Hreset : ∃ msg, debug_reset_recent app fs = (Reply200 msg, NoFile)).
  { unfold debug_reset_recent. rewrite Hdebug. simpl.
    destruct fs; by eexists. }
  destruct Hreset as [msg Hreset]. exists msg, sel, p.
  rewrite Hreset. split; [done|]. split; [done|]. simpl.
  rewrite (get_daily_player_fresh app today NoFile [] Hov eq_refl eq_refl).
  cbv zeta. rewrite filter_nil.
  assert (Hdraw : draw_pool (players_df app) [] = all_indices (players_df app)).
  { unfold draw_pool. simpl. rewrite filter_all.
    - by destruct (all_indices (players_df app)).
    - apply Forall_forall. intros x _. set_solver. }
  by rewrite Hdraw, Hch, Hp.
Qed.

Lemma reset_then_draw_witness :
  ∃ sel p,
    @get_daily_player counter_random debug_app new_year_2024
      (debug_reset_recent debug_app new_year_file).2
    = (Ok {| label := sel; row := p |},
       save_recent_players [(midnight new_year_2024, sel)]).
Proof.
  destruct (@reset_then_draw counter_random debug_app new_year_2024 new_year_file
              eq_refl eq_refl) as (msg & sel & p & _ & _ & Hrun);
    [by vm_compute|].
  exists sel, p. exact Hrun.
Defined.

(** ** [scrape_player.py] *)

Lemma rsplit_comma_None s : rsplit_comma s = None ↔ 44%N ∉ s.
Proof.
  induction s as [|c s IH]; simpl.
  - split; [intros _ ?%elem_of_nil; done|done].
  - destruct (rsplit_comma s) as [[a b]|] eqn:E.
    + split; [done|]. intros Hnot. exfalso.
      assert (Hs : 44%N ∉ s) by (intros ?; apply Hnot; by right).
      by apply IH in Hs.
    + destruct (N.eqb_spec c 44) as [->|Hc].
      * split; [done|]. intros Hnot. exfalso. apply Hnot. by left.
      * split; [|done]. intros _ [?|Hin]%elem_of_cons; [done|].
        by apply (proj1 IH).
Qed.

Lemma rsplit_comma_Some s a b :
  rsplit_comma s = Some (a, b) ↔ s = a ++ 44%N :: b ∧ 44%N ∉ b.
Proof.
  revert a b. induction s as [|c s IH]; intros a b; simpl.
  - split; [done|]. intros [Hs _]. by destruct a.
  - destruct (rsplit_comma s) as [[a' b']|] eqn:E.
    + destruct (proj1 (IH a' b') eq_refl) as [Hs' Hb']. split.
      * intros [= <- <-]. by rewrite Hs'.
      * intros [Hs Hb]. destruct a as [|x a]; simpl in Hs;
          injection Hs as Hx Hs.
        -- exfalso. apply Hb. rewrite <- Hs, Hs'.
           apply elem_of_app. right. by left.
        -- assert (Heq : Some (a', b') = Some (a, b)) by (by apply IH).
           injection Heq as -> ->. by rewrite Hx.
    + apply rsplit_comma_None in E.
      assert (Hlater : ∀ x a, c :: s = (x :: a) ++ 44%N :: b → False).
      { intros x a0 Hs. simpl in Hs. injection Hs as _ Hs. apply E.
        rewrite Hs. apply elem_of_app. right. by left. }
      destruct (N.eqb_spec c 44) as [->|Hc].
      * split.
        -- intros [= <- <-]. done.
        -- intros [Hs Hb]. destruct a as [|x a]; [|by destruct (Hlater x a)].
           simpl in Hs. by injection Hs as ->.
      * split; [done|]. intros [Hs Hb].
        destruct a as [|x a]; [|by destruct (Hlater x a)].
        simpl in Hs. by injection Hs as ->.
Qed.

Lemma find_player_url_spec name lines :
  match find_player_url name lines with
  | Some url =>
      ∃ l1 line l2,
        lines = l1 ++ line :: l2
        ∧ names_player name url line
        ∧ Forall (fun l => ∀ u, ¬ names_player name u l) l1
  | None => Forall (fun l => ∀ u, ¬ names_player name u l) lines
  end.
Proof.
  induction lines as [|line lines IH]; simpl; [done|].
  destruct (rsplit_comma (strip line)) as [[pn pu]|] eqn:E.
  - apply rsplit_comma_Some in E as [Hs Hu].
    destruct (bool_decide_reflect (pn = name)) as [->|Hne].
    + exists [], line, lines. by repeat split.
    + assert (Hline : ∀ u, ¬ names_player name u line).
      { intros u [Hs' Hu']. rewrite Hs in Hs'.
        assert (Heq : rsplit_comma (pn ++ 44%N :: pu) = Some (name, u))
          by (apply rsplit_comma_Some; by rewrite Hs').
        assert (Heq' : rsplit_comma (pn ++ 44%N :: pu) = Some (pn, pu))
          by (by apply rsplit_comma_Some).
        rewrite Heq in Heq'. by injection Heq' as -> _. }
      destruct (find_player_url name lines) as [url|].
      * destruct IH as (l1 & l & l2 & -> & Hl & Hl1).
        exists (line :: l1), l, l2.
        split; [done|]. split; [done|]. by constructor.
      * by constructor.
  - assert (Hline : ∀ u, ¬ names_player name u line).
    { intros u [Hs' Hu']. apply rsplit_comma_None in E. apply E.
      rewrite Hs'. apply elem_of_app. right. by left. }
    destruct (find_player_url name lines) as [url|].
    + destruct IH as (l1 & l & l2 & -> & Hl & Hl1).
      exists (line :: l1), l, l2.
        split; [done|]. split; [done|]. by constructor.
    + by constructor.
Qed.

(** X20. [get_player_url] returns the URL of the first line after the
    header that reads [name,url] once stripped, where [url] is what
    follows the last comma of the line -- so a name may hold commas, a URL
    cannot; it returns nothing when no such line exists, when the file
    cannot be opened and when the file is empty.  The header line is never
    searched. *)
Theorem get_player_url_first_match (name header : str) (lines : list str) :
  match get_player_url name (Some (header :: lines)) with
  | Some url =>
      ∃ l1 line l2,
        lines = l1 ++ line :: l2
        ∧ names_player name url line
        ∧ Forall (fun l => ∀ u, ¬ names_player name u l) l1
  | None => Forall (fun l => ∀ u, ¬ names_player name u l) lines
  end
  ∧ get_player_url name None = None
  ∧ get_player_url name (Some []) = None.
Proof. split; [apply find_player_url_spec|done]. Qed.

Example get_player_url_with_comma_in_name :
  get_player_url (lit "Dunk, Lewis")
    (Some [lit "name,url";
           lit "no comma here";
           lit "Bobby Zamora,https://en.wikipedia.org/wiki/Bobby_Zamora";
           lit "Dunk, Lewis,https://en.wikipedia.org/wiki/Lewis_Dunk"])
  = Some (lit "https://en.wikipedia.org/wiki/Lewis_Dunk").
Proof. reflexivity. Qed.

(** ** A game that keeps going *)

Lemma draw_pool_nonempty df recent : all_indices df ≠ [] → draw_pool df recent ≠ [].
Proof.
  intros Hne. unfold draw_pool. by destruct (filter _ (all_indices df)).
Qed.

(** One call on a sound history returns a player and leaves a sound
    history. *)
Lemma get_daily_player_sound `{PyRandom} app today fs :
  override app = None →
  all_indices (players_df app) ≠ [] →
  history_sound app fs →
  ∃ player fs',
    get_daily_player app today fs = (Ok player, fs')
    ∧ label player ∈ all_indices (players_df app)
    ∧ history_sound app fs'.
Proof.
  intros Hov Hpool (m & Hload & Hm).
  destruct (dict_get m (midnight today)) as [idx|] eqn:Hget.
  - rewrite (get_daily_player_cached app today fs m idx Hov Hload Hget).
    apply dict_get_Some_elem in Hget.
    pose proof (proj1 (Forall_forall _ _) Hm _ Hget) as Hidx. simpl in Hidx.
    destruct (iloc_all_indices _ _ Hidx) as (p & Hp & _).
    exists {| label := idx; row := p |}, fs. split; [by rewrite Hp|].
    split; [done|]. by exists m.
  - rewrite (get_daily_player_fresh app today fs m Hov Hload Hget). cbv zeta.
    set (recent := filter _ m).
    destruct (choice_ok (draw_pool (players_df app) recent)
                (Random (SeedInt (year today * 1000 + tm_yday today))))
      as (sel & Hch & Hsel); [by apply draw_pool_nonempty|].
    rewrite Hch. apply draw_pool_eligible in Hsel.
    destruct (iloc_all_indices _ _ Hsel) as (p & Hp & _).
    exists {| label := sel; row := p |},
      (save_recent_players (dict_set recent (midnight today) sel)).
    split; [by rewrite Hp|].
    split; [done|]. exists (dict_set recent (midnight today) sel). split.
    + apply load_save, dict_set_NoDup, dict_filter_NoDup.
      by eapply load_recent_players_NoDup.
    + apply Forall_forall. intros e [He| ->]%elem_of_dict_set; [|done].
      subst recent. apply list_elem_of_filter in He as [_ He].
      rewrite Forall_forall in Hm. by apply Hm.
Qed.

(** X21. With at least one eligible player, no override and a catalogue
    that stays the same, the selector never fails once it has started on an
    empty history: called on any dates, in any order and with any repeats,
    each call starting from the file the call before has left, it returns
    an eligible player each time. *)
Theorem selection_never_fails_from_empty_history `{PyRandom} (app : App)
    (fs : file_state) (days : list date) :
  override app = None →
  all_indices (players_df app) ≠ [] →
  load_recent_players fs = Ok [] →
  ∃ players,
    (play_days app days fs).1 = Ok <$> players
    ∧ Forall (fun p => label p ∈ all_indices (players_df app)
                       ∧ 0 < league_appearances (row p)) players
    ∧ history_sound app (play_days app days fs).2.
Proof.
  intros Hov Hpool Hload.
  assert (Hsound : history_sound app fs) by (exists []; by split).
  clear Hload. revert fs Hsound.
  induction days as [|d days IH]; intros fs Hsound.
  - by exists [].
  - destruct (get_daily_player_sound app d fs Hov Hpool Hsound)
      as (player & fs1 & Hrun & Hel & Hsound1).
    destruct (IH fs1 Hsound1) as (players & Hplay & Hall & Hlast).
    cbn [play_days]. rewrite Hrun.
    destruct (play_days app days fs1) as [rs fs2]. simpl in *. subst rs.
    exists (player :: players). split; [done|]. split; [|done].
    constructor; [|done]. split; [done|].
    apply get_daily_player_row in Hrun.
    destruct (iloc_all_indices _ _ Hel) as (p & Hp & Happ).
    rewrite Hrun in Hp. by injection Hp as ->.
Qed.

Lemma selection_never_fails_from_empty_history_witness :
  ∃ players,
    (@play_days counter_random small_app
       [new_year_2024; new_year_2024 + 45; new_year_2024; new_year_2024 + 2]
       NotJson).1 = Ok <$> players.
Proof.
  destruct (@selection_never_fails_from_empty_history counter_random small_app
    NotJson [new_year_2024; new_year_2024 + 45; new_year_2024; new_year_2024 + 2]
    eq_refl) as (players & Hplay & _); [by vm_compute|reflexivity|].
  exists players. exact Hplay.
Defined.

(** ** [clean_csv.py] *)

Lemma elem_of_lstrip_with f s c : c ∈ lstrip_with f s → c ∈ s.
Proof.
  induction s as [|x s IH]; simpl; [done|].
  destruct (f x); [|done]. intros H. right. by apply IH.
Qed.

Lemma elem_of_strip_with f s c : c ∈ strip_with f s → c ∈ s.
Proof.
  unfold strip_with. rewrite elem_of_reverse. intros H.
  apply elem_of_lstrip_with in H. rewrite elem_of_reverse in H.
  by apply elem_of_lstrip_with in H.
Qed.

Lemma findall_doubled_no_quote inside line :
  QUOTATION_MARK ∉ line → findall_doubled inside line = [].
Proof.
  revert inside. induction line as [|c t IH]; intros inside Hq; [done|].
  apply not_elem_of_cons in Hq as [Hc Ht].
  cbn [findall_doubled]. destruct t as [|d r]; [done|].
  assert ((c =? 34)%N = false) as -> by (apply N.eqb_neq; by intros ->).
  cbn [andb]. destruct inside; by apply IH.
Qed.

Lemma findall_quoted_no_quote inside line :
  QUOTATION_MARK ∉ line → findall_quoted inside line = [].
Proof.
  revert inside. induction line as [|c t IH]; intros inside Hq; [done|].
  apply not_elem_of_cons in Hq as [Hc Ht].
  cbn [findall_quoted].
  assert ((c =? 34)%N = false) as -> by (apply N.eqb_neq; by intros ->).
  destruct inside; by apply IH.
Qed.

(** X22. [clean_csv.py] keeps of a data line only what stands between
    quotes: a line after the header that holds no double quote at all is
    written out as an empty line, whatever it held. *)
Theorem unquoted_row_is_erased (i : nat) (line : str) :
  QUOTATION_MARK ∉ line → clean_line (S i) line = [].
Proof.
  intros Hq. unfold clean_line.
  assert (Hs : QUOTATION_MARK ∉ strip line).
  { intros H. by apply elem_of_strip_with in H. }
  by rewrite findall_doubled_no_quote, findall_quoted_no_quote.
Qed.

Lemma findall_doubled_field acc f rest :
  QUOTATION_MARK ∉ f →
  findall_doubled (Some acc) (f ++ QUOTATION_MARK :: QUOTATION_MARK :: rest)
  = (reverse acc ++ f) :: findall_doubled None rest.
Proof.
  revert acc. induction f as [|c f IH]; intros acc Hq.
  - by rewrite app_nil_r.
  - apply not_elem_of_cons in Hq as [Hc Hf].
    assert (Hc' : (c =? 34)%N = false) by (apply N.eqb_neq; by intros ->).
    specialize (IH (c :: acc) Hf).
    rewrite reverse_cons, <- app_assoc in IH. simpl in IH.
    rewrite <- IH. 
    destruct f as [|d f]; cbn [app findall_doubled]; by rewrite Hc'.
Qed.

Lemma doubled_row_head g rest :
  ∃ tail, doubled_row (g :: rest) = QUOTATION_MARK :: QUOTATION_MARK :: tail.
Proof.
  unfold doubled_row.
  destruct rest; cbn [fmap list_fmap join]; unfold doubled at 1; cbn [app];
    by eexists.
Qed.

Lemma findall_doubled_row fields :
  Forall (fun f => QUOTATION_MARK ∉ f) fields →
  findall_doubled None (doubled_row fields) = fields.
Proof.
  induction 1 as [|f fields Hf Hfs IH]; [done|].
  destruct fields as [|g rest].
  - unfold doubled_row. cbn [fmap list_fmap join]. unfold doubled.
    change (findall_doubled (Some []) (f ++ [QUOTATION_MARK; QUOTATION_MARK]) = [f]).
    by rewrite findall_doubled_field.
  - change (doubled_row (f :: g :: rest))
      with (doubled f ++ lit "," ++ doubled_row (g :: rest)).
    destruct (doubled_row_head g rest) as [tail Htail].
    rewrite Htail in *. unfold doubled. rewrite <- !app_assoc.
    change (findall_doubled (Some [])
      (f ++ QUOTATION_MARK :: QUOTATION_MARK :: lit "," ++ QUOTATION_MARK :: QUOTATION_MARK :: tail)
      = f :: g :: rest).
    rewrite findall_doubled_field by done. by rewrite <- IH.
Qed.

Lemma isspace_quote : isspace QUOTATION_MARK = false.
Proof. reflexivity. Qed.

Lemma strip_with_id f s :
  match s with [] => True | c :: _ => f c = false end →
  match reverse s with [] => True | c :: _ => f c = false end →
  strip_with f s = s.
Proof.
  intros Hh Hl. unfold strip_with.
  assert (H1 : lstrip_with f s = s).
  { destruct s as [|c s]; [done|]. simpl. by rewrite Hh. }
  rewrite H1.
  assert (H2 : lstrip_with f (reverse s) = reverse s).
  { destruct (reverse s) as [|c r]; [done|]. simpl. by rewrite Hl. }
  by rewrite H2, reverse_involutive.
Qed.

Lemma doubled_row_last fields :
  fields ≠ [] → ∃ init, doubled_row fields = init ++ [QUOTATION_MARK].
Proof.
  induction fields as [|f fields IH]; [done|]. intros _.
  destruct fields as [|g rest].
  - exists ([QUOTATION_MARK; QUOTATION_MARK] ++ f ++ [QUOTATION_MARK]).
    unfold doubled_row. cbn [fmap list_fmap join]. unfold doubled.
    by rewrite <- !app_assoc.
  - destruct IH as [init Hi]; [done|].
    exists (doubled f ++ lit "," ++ init).
    change (doubled_row (f :: g :: rest))
      with (doubled f ++ lit "," ++ doubled_row (g :: rest)).
    by rewrite Hi, <- !app_assoc.
Qed.

Lemma strip_doubled_row fields : strip (doubled_row fields) = doubled_row fields.
Proof.
  destruct fields as [|f fields]; [done|].
  apply strip_with_id.
  - by destruct (doubled_row_head f fields) as [tail ->].
  - destruct (doubled_row_last (f :: fields)) as [init ->]; [done|].
    by rewrite reverse_app.
Qed.

Lemma imap_doubled_rows (f : nat → str → str) (rows : list (list str)) :
  (∀ i fields, Forall (fun x => QUOTATION_MARK ∉ x) fields →
     f i (doubled_row fields) = join (lit ",") fields) →
  Forall (Forall (fun x => QUOTATION_MARK ∉ x)) rows →
  imap f (doubled_row <$> rows) = join (lit ",") <$> rows.
Proof.
  intros Hf Hrows. revert f Hf.
  induction Hrows as [|fields rows Hfields _ IH]; intros f Hf; [done|].
  cbn [fmap list_fmap imap]. rewrite (Hf 0%nat) by done. f_equal.
  apply IH. intros i. apply Hf.
Qed.

Lemma clean_line_doubled_row (i : nat) (fields : list str) :
  Forall (fun f => QUOTATION_MARK ∉ f) fields →
  clean_line (S i) (doubled_row fields) = join (lit ",") fields.
Proof.
  intros Hf. unfold clean_line.
  rewrite strip_doubled_row, findall_doubled_row by done.
  by destruct fields.
Qed.

(** X23. [clean_csv.py] on a file whose data lines hold fields wrapped in
    doubled quotes and separated by commas, the fields holding no double
    quote themselves: the header is written stripped and otherwise as it
    is, and each data line becomes its fields, unwrapped and joined with
    commas.  A comma inside a field is written as it is, so it reads as a
    field separator in the output. *)
Theorem clean_csv_unwraps_doubled_rows (header : str) (rows : list (list str)) :
  Forall (Forall (fun f => QUOTATION_MARK ∉ f)) rows →
  clean_csv (header :: (doubled_row <$> rows))
  = strip header :: (join (lit ",") <$> rows).
Proof.
  intros Hrows. unfold clean_csv. cbn [imap]. f_equal.
  apply imap_doubled_rows; [|done].
  intros i fields Hf. by apply clean_line_doubled_row.
Qed.

Lemma unquoted_row_is_erased_witness :
  QUOTATION_MARK ∉ lit "Lewis Dunk,21 November 1991,Brighton"
  ∧ clean_line 3 (lit "Lewis Dunk,21 November 1991,Brighton") = [].
Proof.
  assert (Hq : QUOTATION_MARK ∉ lit "Lewis Dunk,21 November 1991,Brighton")
    by (apply (bool_decide_unpack _); by vm_compute).
  split; [exact Hq|]. exact (unquoted_row_is_erased 2 _ Hq).
Defined.

Lemma clean_csv_unwraps_doubled_rows_witness :
  clean_csv
    [lit "name,place of birth  ";
     doubled_row [lit "Lewis Dunk"; lit "Brighton, England"];
     doubled_row [lit "Bruno"; []]]
  = [lit "name,place of birth";
     lit "Lewis Dunk,Brighton, England";
     lit "Bruno,"].
Proof.
  refine (eq_trans
    (clean_csv_unwraps_doubled_rows (lit "name,place of birth  ")
       [[lit "Lewis Dunk"; lit "Brighton, England"]; [lit "Bruno"; []]] _) _).
  - apply (bool_decide_unpack _). by vm_compute.
  - by vm_compute.
Defined.

(** ** [scrape_player.py]: the career read from the infobox *)

Lemma list_find_at_brighton_None rows :
  Forall (fun r => contains (lit "Brighton") (club r) = false) rows →
  list_find at_brighton rows = None ∧ filter at_brighton rows = [].
Proof.
  intros Hn. split.
  - apply list_find_None. eapply Forall_impl; [exact Hn|].
    intros r Hr. unfold at_brighton. by rewrite Hr.
  - induction Hn as [|r rows Hr _ IH]; [done|].
    rewrite filter_cons_False; [done|]. unfold at_brighton. by rewrite Hr.
Qed.

(** X24. The career that [scrape_player_info] reads from the infobox when
    the page has no career table: the club recorded as played for before
    Brighton and the club recorded as played for after Brighton never read
    as Brighton themselves; and when no row of the infobox names Brighton
    the player is still recorded, with no spell, no appearance, no goal, no
    seasons, [N/A (First Club)] before and [Still at club] after. *)
Theorem infobox_clubs_around_brighton (club_rows : list ClubRow) :
  let c := infobox_career club_rows in
  contains (lit "Brighton") (career_before c) = false
  ∧ contains (lit "Brighton") (career_after c) = false
  ∧ (Forall (fun r => contains (lit "Brighton") (club r) = false) club_rows →
     c = {| career_appearances := 0; career_goals := 0; career_spells := 0;
            career_seasons := []; career_seasons_second_spell := [];
            career_before := lit "N/A (First Club)";
            career_after := lit "Still at club" |}).
Proof.
  cbv zeta. split; [|split].
  - unfold infobox_career. cbn [career_before].
    destruct (list_find at_brighton club_rows) as [[i r]|] eqn:Hfind;
      cbn [fmap option_fmap option_map fst]; [|by vm_compute].
    destruct i as [|i]; [by vm_compute|].
    apply list_find_Some in Hfind as (_ & _ & Hfirst).
    destruct (club_rows !! i) as [r'|] eqn:Hi; [|done].
    specialize (Hfirst i r' Hi ltac:(lia)). unfold at_brighton in Hfirst.
    by destruct (contains _ _).
  - unfold infobox_career. cbn [career_after].
    destruct (list_find at_brighton club_rows) as [[i r]|];
      cbn [fmap option_fmap option_map fst]; [|by vm_compute].
    destruct (club_rows !! (i + 1)%nat) as [r'|]; [|by vm_compute].
    destruct (contains (lit "Brighton") (club r')) eqn:E; [by vm_compute|done].
  - intros Hn. apply list_find_at_brighton_None in Hn as [Hfind Hfilter].
    unfold infobox_career. by rewrite Hfind, Hfilter.
Qed.
